(** * biggan/training.py: hinge losses, minimisation step and training driver

    A shallow embedding of [src/biggan/training.py].

    - Python exceptions are the [Raise] branch of [Result]; the code has no
      [try]/[except], so an exception always propagates to the caller.
    - A Python [int] is a [Z]; [//] on ints is [Z.div] (both round towards
      minus infinity) guarded by the [ZeroDivisionError] that [Z.div] lacks.
      [1.0 / d] converts the int [d] to a float first, which raises
      [OverflowError] from [2 ** 1024 - 2 ** 970] on.
    - A [tf.Tensor] of scores is the row-major list of its elements.  The
      hinge losses are embedded twice.  Module [Float32] has them on
      float32 tensors, with IEEE 754 operations ([SpecFloat]): every
      operation rounds, sums overflow to infinity, products underflow, NaN
      propagates, and [1.0 / global_batch_size] is a binary64 that is
      rounded to float32 before the product.  What the losses return is
      stated there.  The definitions outside the module read the same code
      over the real numbers, without rounding; they carry the tensors that
      the minimisation step passes along and the order facts on the hinge
      terms.
    - Calls into TensorFlow/Keras objects (tape, optimizer, model, dataset)
      are requests of a program tree [Prog]; a handler answers them, so every
      statement about a run holds for every behaviour of those objects. *)

From Stdlib Require Import Reals ZArith List String Bool Lra Lia.
From Stdlib Require Import SpecFloat.
From ExtLib Require Import Structures.Monad Structures.MonadExc.
Import ListNotations.
Import MonadNotation.
Local Open Scope monad_scope.

(** ** Python values and exceptions *)

(** The exception classes that occur below.  [ZeroDivisionError],
    [OverflowError] and [TypeError] are raised by the interpreter;
    [ValueError] and [InvalidArgumentError]
    ([tf.errors.InvalidArgumentError]) are the classes with which Python and
    TensorFlow code reports a rejected argument value; [OtherError] stands
    for whatever a collaborator object raises. *)
Inductive exception : Type :=
| ZeroDivisionError
| OverflowError
| TypeError
| ValueError
| InvalidArgumentError
| OtherError (name : string).


(** Exceptions of the invalid-argument kind: the two classes that report a
    rejected argument value.  [ZeroDivisionError] is an [ArithmeticError],
    the fault of a division that was carried out. *)
Definition invalid_argument_kind (e : exception) : bool :=
  match e with
  | ValueError | InvalidArgumentError => true
  | _ => false
  end.

Inductive Result (A : Type) : Type :=
| Ok (a : A)
| Raise (e : exception).
Arguments Ok {A} a.
Arguments Raise {A} e.

#[global] Instance Monad_Result : Monad Result :=
  {| ret := fun _ a => Ok a;
     bind := fun _ _ c k => match c with Ok a => k a | Raise e => Raise e end |}.

#[global] Instance Exc_Result : MonadExc exception Result :=
  {| raise := fun _ e => Raise e;
     catch := fun _ c h => match c with Ok a => Ok a | Raise e => h e end |}.

(** The Python objects an unchecked parameter can be bound to. *)
Inductive PyVal : Type :=
| PyNone
| PyBool (b : bool)
| PyInt (z : Z)
| PyStr (s : string).

(** [bool(v)]. *)
Definition truthy (v : PyVal) : bool :=
  match v with
  | PyNone => false
  | PyBool b => b
  | PyInt z => negb (z =? 0)%Z
  | PyStr s => negb (s =? "")%string
  end.

(** [a or b]: [a] when it is truthy, else [b]. *)
Definition py_or (a b : PyVal) : PyVal := if truthy a then a else b.

(** [z // d] on ints. *)
Definition int_floordiv (z d : Z) : Result Z :=
  if (d =? 0)%Z then raise ZeroDivisionError else ret (z / d)%Z.

(** [v // d] for an int [d]: [bool] is a subclass of [int]; [None] and [str]
    have no [__floordiv__] and [int.__rfloordiv__] rejects them. *)
Definition floordiv (v : PyVal) (d : Z) : Result Z :=
  match v with
  | PyInt z => int_floordiv z d
  | PyBool b => int_floordiv (Z.b2z b) d
  | PyNone | PyStr _ => raise TypeError
  end.

(** The ints from [float_max_int] on, and their negations, have no float:
    the nearest double would be [2 ** 1024]. *)
Definition float_max_int : Z := 2 ^ 1024 - 2 ^ 970.

(** [x / d] for a float [x] and an int [d]: [d] is converted to a float
    first, then a zero divisor is refused. *)
Definition float_truediv (x : R) (d : Z) : Result R :=
  if (float_max_int <=? Z.abs d)%Z then raise OverflowError
  else if (d =? 0)%Z then raise ZeroDivisionError
  else ret (x / IZR d)%R.

(** ** Tensors *)

Definition Tensor : Type := list R.

(** [tf.reduce_sum(t)] over all axes. *)
Definition reduce_sum (t : Tensor) : R := fold_right Rplus 0%R t.

(** [tf.nn.relu] on one element, [max(x, 0)], and on a tensor. *)
Definition relu1 (x : R) : R := Rmax x 0.
Definition relu (t : Tensor) : Tensor := map relu1 t.

(** [c - t] and [c + t] for a Python float [c], broadcast over [t]. *)
Definition rsub (c : R) (t : Tensor) : Tensor := map (fun x => c - x)%R t.
Definition radd (c : R) (t : Tensor) : Tensor := map (fun x => c + x)%R t.

(** ** Hinge losses *)

Definition discriminator_hinge_loss
    (logits_real logits_fake : Tensor) (global_batch_size : Z) : Result R :=
  let L_D := (reduce_sum (relu (rsub 1 logits_real))
              + reduce_sum (relu (radd 1 logits_fake)))%R in
  c <- float_truediv 1 global_batch_size ;;
  ret (L_D * c)%R.

Definition generator_hinge_loss
    (logits_fake : Tensor) (global_batch_size : Z) : Result R :=
  let L_G := (- reduce_sum logits_fake)%R in
  c <- float_truediv 1 global_batch_size ;;
  ret (L_G * c)%R.

Definition full_hinge_loss
    (logits_real logits_fake : Tensor) (global_batch_size : Z)
    : Result (R * R) :=
  g <- generator_hinge_loss logits_fake global_batch_size ;;
  d <- discriminator_hinge_loss logits_real logits_fake global_batch_size ;;
  ret (g, d).

(** ** Hinge losses on float32 tensors *)

Module Float32.

(** A [tf.Tensor] of dtype float32, row-major; a Python [float] is a
    binary64.  Both are [spec_float]s, rounded to nearest, ties to even. *)
Definition Tensor : Type := list spec_float.

Definition zero : spec_float := S754_zero false.
(** [1.0] as a float32 and as a Python float. *)
Definition one : spec_float := S754_finite false 8388608 (-23).
Definition py_one : spec_float := S754_finite false 4503599627370496 (-52).

(** The float32 nearest to an int, for writing tensors down. *)
Definition of_int (z : Z) : spec_float := binary_normalize 24 128 z 0 false.


(** [x] is NaN; [0 <= x]; [x] is a zero of either sign. *)
Definition is_nan (x : spec_float) : bool :=
  match x with S754_nan => true | _ => false end.
Definition nonneg (x : spec_float) : bool := SFleb zero x.
Definition is_zero (x : spec_float) : bool :=
  match x with S754_zero _ => true | _ => false end.

(** *** Python floats *)

(** [float(d)]: raises [OverflowError] when [d] is too large. *)
Definition float_of_int (d : Z) : Result spec_float :=
  if (float_max_int <=? Z.abs d)%Z then raise OverflowError
  else ret (binary_normalize 53 1024 d 0 false).

(** [x / d] for a float [x] and an int [d]: [d] is converted first, then
    a zero divisor is refused. *)
Definition float_truediv (x : spec_float) (d : Z) : Result spec_float :=
  y <- float_of_int d ;;
  if (d =? 0)%Z then raise ZeroDivisionError else ret (SFdiv 53 1024 x y).

(** A Python float turned into a float32 tensor. *)
Definition to_float32 (x : spec_float) : spec_float :=
  match x with
  | S754_finite s m e => binary_round 24 128 s m e
  | _ => x
  end.

(** *** float32 kernels

    TensorFlow's CPU kernels run with flush-to-zero and
    denormals-are-zero set; [ftz] says whether they are.  With [ftz], a
    subnormal operand or result counts as a zero of its sign. *)
Section Kernels.
Variable ftz : bool.

Definition flush (x : spec_float) : spec_float :=
  match x with
  | S754_finite s m e =>
      if ftz && (Zpos (digits2_pos m) <? 24)%Z then S754_zero s else x
  | _ => x
  end.

Definition fadd (x y : spec_float) : spec_float :=
  flush (SFadd 24 128 (flush x) (flush y)).
Definition fsub (x y : spec_float) : spec_float :=
  flush (SFsub 24 128 (flush x) (flush y)).
Definition fmul (x y : spec_float) : spec_float :=
  flush (SFmul 24 128 (flush x) (flush y)).

(** [tf.reduce_sum(t)] over all axes, accumulated in index order. *)
Definition reduce_sum (t : Tensor) : spec_float := fold_left fadd t zero.

(** [tf.nn.relu]: a negative element becomes [0], every other element,
    NaN included, is kept. *)
Definition relu1 (x : spec_float) : spec_float :=
  if SFltb x zero then zero else x.
Definition relu (t : Tensor) : Tensor := map relu1 t.

(** [c - t] and [c + t] for a float32 [c], broadcast over [t]. *)
Definition rsub (c : spec_float) (t : Tensor) : Tensor := map (fsub c) t.
Definition radd (c : spec_float) (t : Tensor) : Tensor := map (fadd c) t.

(** [(1.0 / global_batch_size)] as the float32 operand of [*]. *)
Definition batch_factor (global_batch_size : Z) : Result spec_float :=
  c <- float_truediv py_one global_batch_size ;;
  ret (to_float32 c).

Definition discriminator_hinge_loss
    (logits_real logits_fake : Tensor) (global_batch_size : Z)
    : Result spec_float :=
  let L_D := fadd (reduce_sum (relu (rsub one logits_real)))
                  (reduce_sum (relu (radd one logits_fake))) in
  c <- batch_factor global_batch_size ;;
  ret (fmul L_D c).

Definition generator_hinge_loss
    (logits_fake : Tensor) (global_batch_size : Z) : Result spec_float :=
  let L_G := SFopp (reduce_sum logits_fake) in
  c <- batch_factor global_batch_size ;;
  ret (fmul L_G c).

Definition full_hinge_loss
    (logits_real logits_fake : Tensor) (global_batch_size : Z)
    : Result (spec_float * spec_float) :=
  g <- generator_hinge_loss logits_fake global_batch_size ;;
  d <- discriminator_hinge_loss logits_real logits_fake global_batch_size ;;
  ret (g, d).
End Kernels.

(** The two operands of the final product of [discriminator_hinge_loss]:
    the sum of the hinge terms and the float32 factor. *)
Definition hinge_sum (ftz : bool) (r f : Tensor) : spec_float :=
  fadd ftz (reduce_sum ftz (relu (rsub ftz one r)))
           (reduce_sum ftz (relu (radd ftz one f))).
Definition reciprocal (b : Z) : spec_float :=
  to_float32 (SFdiv 53 1024 py_one (binary_normalize 53 1024 b 0 false)).

End Float32.

(** ** Programs over collaborator objects

    [Call op k] sends the request [op] to the object it names and goes on
    with [k] applied to the answer, which is a value or an exception. *)

Section Programs.
Variable Op : Type.
Variable resp : Op -> Type.

Inductive Prog (A : Type) : Type :=
| Ret (a : A)
| Throw (e : exception)
| Call (op : Op) (k : Result (resp op) -> Prog A).
Arguments Ret {A} a.
Arguments Throw {A} e.
Arguments Call {A} op k.

Fixpoint pbind {A B : Type} (p : Prog A) (f : A -> Prog B) : Prog B :=
  match p with
  | Ret a => f a
  | Throw e => Throw e
  | Call op k => Call op (fun r => pbind (k r) f)
  end.

(** A pure step that may raise. *)
Definition lift {A : Type} (r : Result A) : Prog A :=
  match r with
  | Ok a => Ret a
  | Raise e => Throw e
  end.

(** A call whose exception is not caught. *)
Definition call (op : Op) : Prog (resp op) := Call op lift.

(** [with ctx: body]: [leave] runs whether [body] returned or raised, and
    the outcome of [body] is passed on. *)
Definition finally (op : Op) (leave : Prog unit) : Prog (resp op) :=
  Call op (fun r => pbind leave (fun _ => lift r)).

Section Run.
Variable W : Type.
Variable h : forall op : Op, W -> Result (resp op) * W.

Fixpoint run {A : Type} (p : Prog A) (w : W) : Result A * W :=
  match p with
  | Ret a => (Ok a, w)
  | Throw e => (Raise e, w)
  | Call op k => let (r, w') := h op w in run (k r) w'
  end.

(** The requests made, in order. *)
Fixpoint trace {A : Type} (p : Prog A) (w : W) : list Op :=
  match p with
  | Ret _ | Throw _ => []
  | Call op k => let (r, w') := h op w in op :: trace (k r) w'
  end.
End Run.
End Programs.

Arguments Ret {Op resp A} a.
Arguments Throw {Op resp A} e.
Arguments Call {Op resp A} op k.
Arguments pbind {Op resp A B} p f.
Arguments lift {Op resp A} r.
Arguments call {Op resp} op.
Arguments finally {Op resp} op leave.
Arguments run {Op resp W} h {A} p w.
Arguments trace {Op resp W} h {A} p w.

#[global] Instance Monad_Prog (Op : Type) (resp : Op -> Type)
  : Monad (Prog Op resp) :=
  {| ret := fun _ a => Ret a;
     bind := fun _ _ p f => pbind p f |}.

(** ** Minimisation step *)

Section Minimize.
(** Object references: [tf.keras.optimizers.Optimizer], [tf.Variable],
    [tf.GradientTape] and the callable [loss_fn].  What the callable returns
    is a [tf.Tensor], the return annotation that typeguard enforces. *)
Variables Optimizer Var Tape Callable : Type.

(** What [tape.gradient] gives for one variable: a tensor, or [None] when
    the loss does not depend on it. *)
Definition Grad : Type := option Tensor.

Inductive MinOp : Type :=
| GradientTape                       (* tf.GradientTape().__enter__() *)
| Invoke (f : Callable)              (* f() *)
| TapeExit (tape : Tape)             (* tape.__exit__(...) *)
| TapeGradient (tape : Tape) (target : Tensor) (sources : list Var)
| ApplyGradients (optimizer : Optimizer)
                 (grads_and_vars : list (Grad * Var)).

Definition min_resp (op : MinOp) : Type :=
  match op with
  | GradientTape => Tape
  | Invoke _ => Tensor
  | TapeExit _ => unit
  | TapeGradient _ _ _ => list Grad
  | ApplyGradients _ _ => unit
  end.

Definition imperative_minimize
    (optimizer : Optimizer) (loss_fn : Callable) (var_list : list Var)
    : Prog MinOp min_resp Tensor :=
  tape <- call GradientTape ;;
  loss <- finally (Invoke loss_fn) (call (TapeExit tape)) ;;
  grad <- call (TapeGradient tape loss var_list) ;;
  call (ApplyGradients optimizer (combine grad var_list)) ;;
  ret loss.

(** Number of evaluations of [f] among the requests [tr]. *)
Fixpoint invocations (tr : list MinOp) : nat :=
  match tr with
  | [] => 0
  | Invoke _ :: tr' => S (invocations tr')
  | _ :: tr' => invocations tr'
  end.
End Minimize.

Arguments GradientTape {Optimizer Var Tape Callable}.
Arguments Invoke {Optimizer Var Tape Callable} f.
Arguments TapeExit {Optimizer Var Tape Callable} tape.
Arguments TapeGradient {Optimizer Var Tape Callable} tape target sources.
Arguments ApplyGradients {Optimizer Var Tape Callable} optimizer grads_and_vars.
Arguments imperative_minimize {Optimizer Var Tape Callable}
  optimizer loss_fn var_list.
Arguments invocations {Optimizer Var Tape Callable} tr.

(** ** Training driver *)

Section Driver.
(** Object references: the [tf.keras.Model], the [tf.data.Dataset] and what
    [model.create_callbacks] returns. *)
Variables Model Dataset Callbacks : Type.

Inductive DriverOp : Type :=
| CreateCallbacks (model : Model) (model_dir : string)
| ElementSpecBatchDim (data : Dataset)   (* data.element_spec[0].shape[0] *)
| SetGlobalBatchSize (model : Model) (value : option Z)
| Fit (model : Model) (data : Dataset) (callbacks : Callbacks)
      (epochs steps_per_epoch initial_epoch : Z).

Definition driver_resp (op : DriverOp) : Type :=
  match op with
  | CreateCallbacks _ _ => Callbacks
  | ElementSpecBatchDim _ => option Z
  | SetGlobalBatchSize _ _ => unit
  | Fit _ _ _ _ _ _ => unit
  end.

(** [num_steps] and [log_every] are ints, as annotated; their defaults come
    from the configuration module and are passed here by the caller.
    [initial_step] is whatever object the caller supplies: nothing checks the
    annotation of this function at run time. *)
Definition train_model
    (model : Model) (data : Dataset) (model_dir : string)
    (num_steps log_every : Z) (initial_step : PyVal)
    : Prog DriverOp driver_resp Model :=
  callbacks <- call (CreateCallbacks model model_dir) ;;
  b <- call (ElementSpecBatchDim data) ;;
  call (SetGlobalBatchSize model b) ;;
  epochs <- lift (int_floordiv num_steps log_every) ;;
  initial_epoch <- lift (floordiv (py_or initial_step (PyInt 0)) log_every) ;;
  call (Fit model data callbacks epochs log_every initial_epoch) ;;
  ret model.

(** [train_model] from the point where [epochs] and [initial_epoch] are
    known, and from the point where a division has raised [e]. *)
Definition fit_with
    (model : Model) (data : Dataset) (model_dir : string)
    (epochs steps_per_epoch initial_epoch : Z)
    : Prog DriverOp driver_resp Model :=
  callbacks <- call (CreateCallbacks model model_dir) ;;
  b <- call (ElementSpecBatchDim data) ;;
  call (SetGlobalBatchSize model b) ;;
  call (Fit model data callbacks epochs steps_per_epoch initial_epoch) ;;
  ret model.

Definition fail_before_fit
    (model : Model) (data : Dataset) (model_dir : string) (e : exception)
    : Prog DriverOp driver_resp Model :=
  callbacks <- call (CreateCallbacks model model_dir) ;;
  b <- call (ElementSpecBatchDim data) ;;
  call (SetGlobalBatchSize model b) ;;
  Throw e.

(** The schedule handed to [fit], read off the requests of a run:
    [(epochs, steps_per_epoch, initial_epoch)] of each [Fit]. *)
Fixpoint fit_schedule (tr : list DriverOp) : list (Z * Z * Z) :=
  match tr with
  | [] => []
  | Fit _ _ _ e s i :: tr' => (e, s, i) :: fit_schedule tr'
  | _ :: tr' => fit_schedule tr'
  end.
End Driver.

Arguments CreateCallbacks {Model Dataset Callbacks} model model_dir.
Arguments ElementSpecBatchDim {Model Dataset Callbacks} data.
Arguments SetGlobalBatchSize {Model Dataset Callbacks} model value.
Arguments Fit {Model Dataset Callbacks}
  model data callbacks epochs steps_per_epoch initial_epoch.
Arguments train_model {Model Dataset} Callbacks
  model data model_dir num_steps log_every initial_step.
Arguments fit_with {Model Dataset} Callbacks
  model data model_dir epochs steps_per_epoch initial_epoch.
Arguments fail_before_fit {Model Dataset} Callbacks model data model_dir e.
Arguments fit_schedule {Model Dataset Callbacks} tr.

(** ** Concrete collaborators, for running the programs *)

(** A model named by a string, a dataset given by its batch dimension, and
    the callbacks given by their directory.  The world is the value of the
    attribute [model.global_batch_size]. *)
Definition toy_keras
    (op : DriverOp string Z string) (w : option Z)
    : Result (driver_resp string Z string op) * option Z :=
  match op with
  | CreateCallbacks _ dir => (Ok dir, w)
  | ElementSpecBatchDim d => (Ok (Some d), w)
  | SetGlobalBatchSize _ v => (Ok tt, v)
  | Fit _ _ _ _ _ _ => (Ok tt, w)
  end.

(** One variable [x], held in the world; [loss_fn] computes [x * x], the tape
    differentiates it, and the optimizer, given by its learning rate, does a
    gradient-descent step. *)
Definition descend (lr : R) (x : R) (gv : Grad * unit) : R :=
  match fst gv with
  | Some [g] => (x - lr * g)%R
  | _ => x
  end.

Definition toy_tf
    (op : MinOp R unit unit unit) (x : R)
    : Result (min_resp R unit unit unit op) * R :=
  match op with
  | GradientTape => (Ok tt, x)
  | Invoke _ => (Ok [x * x]%R, x)
  | TapeExit _ => (Ok tt, x)
  | TapeGradient _ _ vars => (Ok (map (fun _ => Some [2 * x]%R) vars), x)
  | ApplyGradients lr gvs => (Ok tt, fold_left (descend lr) gvs x)
  end.

(** ** Graph-mode minimisation step *)

Section Declarative.
(** Object references: the optimizer, the variables, the symbolic loss
    tensor and the [tf.Operation] that [apply_gradients] returns. *)
Variables Optimizer Var LossExpr GradExpr Operation : Type.

Inductive DeclOp : Type :=
| GetGradients (optimizer : Optimizer) (loss : LossExpr) (params : list Var)
| ApplyGradientsOp (optimizer : Optimizer)
                   (grads_and_vars : list (GradExpr * Var)).

Definition decl_resp (op : DeclOp) : Type :=
  match op with
  | GetGradients _ _ _ => list GradExpr
  | ApplyGradientsOp _ _ => Operation
  end.

Definition declarative_minimize
    (optimizer : Optimizer) (loss : LossExpr) (var_list : list Var)
    : Prog DeclOp decl_resp Operation :=
  grads <- (call (GetGradients optimizer loss var_list)
            : Prog DeclOp decl_resp (list GradExpr)) ;;
  (call (ApplyGradientsOp optimizer (combine grads var_list))
   : Prog DeclOp decl_resp Operation).
End Declarative.

Arguments GetGradients {Optimizer Var LossExpr GradExpr} optimizer loss params.
Arguments ApplyGradientsOp {Optimizer Var LossExpr GradExpr}
  optimizer grads_and_vars.
Arguments declarative_minimize {Optimizer Var LossExpr} GradExpr Operation
  optimizer loss var_list.

(** An optimizer, named by a string, that differentiates the loss [x * x]
    symbolically: one gradient expression per variable name; the operation
    it returns is the list of updates to perform. *)
Definition toy_graph
    (op : DeclOp string string string string) (w : nat)
    : Result (decl_resp string string string string (list (string * string)) op)
      * nat :=
  match op with
  | GetGradients _ loss params =>
      (Ok (map (fun v => String.append "d/d" v) params), w)
  | ApplyGradientsOp _ gvs => (Ok gvs, S w)
  end.

(** TensorFlow objects of which one fails: [loss_fn] in [toy_tf_bad_loss],
    the tape's gradient in [toy_tf_bad_gradient], and the optimizer's
    [get_gradients] in [toy_graph_bad_gradient]. *)
Definition toy_tf_bad_loss
    (op : MinOp R unit unit unit) (x : R)
    : Result (min_resp R unit unit unit op) * R :=
  match op with
  | GradientTape => (Ok tt, x)
  | Invoke _ => (Raise (OtherError "loss_fn"), x)
  | TapeExit _ => (Ok tt, x)
  | TapeGradient _ _ vars => (Ok (map (fun _ => Some [2 * x]%R) vars), x)
  | ApplyGradients lr gvs => (Ok tt, fold_left (descend lr) gvs x)
  end.

Definition toy_tf_bad_gradient
    (op : MinOp R unit unit unit) (x : R)
    : Result (min_resp R unit unit unit op) * R :=
  match op with
  | GradientTape => (Ok tt, x)
  | Invoke _ => (Ok [x * x]%R, x)
  | TapeExit _ => (Ok tt, x)
  | TapeGradient _ _ vars => (Raise (OtherError "gradient"), x)
  | ApplyGradients lr gvs => (Ok tt, fold_left (descend lr) gvs x)
  end.

Definition toy_graph_bad_gradient
    (op : DeclOp string string string string) (w : nat)
    : Result (decl_resp string string string string (list (string * string)) op)
      * nat :=
  match op with
  | GetGradients _ _ _ => (Raise (OtherError "get_gradients"), w)
  | ApplyGradientsOp _ gvs => (Ok gvs, S w)
  end.

(** A Keras model whose [fit] fails. *)
Definition toy_keras_bad_fit
    (op : DriverOp string Z string) (w : option Z)
    : Result (driver_resp string Z string op) * option Z :=
  match op with
  | CreateCallbacks _ dir => (Ok dir, w)
  | ElementSpecBatchDim d => (Ok (Some d), w)
  | SetGlobalBatchSize _ v => (Ok tt, v)
  | Fit _ _ _ _ _ _ => (Raise (OtherError "fit"), w)
  end.

(** * Properties *)

(** ** Float arithmetic: signs *)

Section Rounding.
Variables prec emax : Z.

Lemma shr_1_nonneg mrs : (0 <= shr_m mrs)%Z -> (0 <= shr_m (shr_1 mrs))%Z.
Proof.
  destruct mrs as [m r s]. destruct m as [|[p|p|]|p]; cbn; lia.
Qed.

Lemma iter_shr_1_nonneg p mrs :
  (0 <= shr_m mrs)%Z -> (0 <= shr_m (iter_pos shr_1 p mrs))%Z.
Proof.
  revert mrs. induction p as [p IH|p IH|]; intros mrs H; cbn.
  - apply IH, IH, shr_1_nonneg, H.
  - apply IH, IH, H.
  - apply shr_1_nonneg, H.
Qed.

Lemma shr_m_of_loc m l : shr_m (shr_record_of_loc m l) = m.
Proof. destruct l as [|[]]; reflexivity. Qed.

Lemma shr_fexp_nonneg m e l :
  (0 <= m)%Z -> (0 <= shr_m (fst (shr_fexp prec emax m e l)))%Z.
Proof.
  intros H. unfold shr_fexp, shr.
  destruct (fexp prec emax (Zdigits2 m + e) - e)%Z; cbn;
    try (rewrite shr_m_of_loc; exact H).
  apply iter_shr_1_nonneg. rewrite shr_m_of_loc. exact H.
Qed.

Lemma round_nearest_even_nonneg m l :
  (0 <= m)%Z -> (0 <= round_nearest_even m l)%Z.
Proof.
  intros H. destruct l as [|[]]; cbn; try lia.
  destruct (Z.even m); lia.
Qed.

(** Rounding keeps the sign and never gives NaN. *)
Lemma binary_round_aux_sign s m e l :
  (0 <= m)%Z ->
  match binary_round_aux prec emax s m e l with
  | S754_zero s' | S754_infinity s' | S754_finite s' _ _ => s' = s
  | S754_nan => False
  end.
Proof.
  intros H. unfold binary_round_aux.
  pose proof (shr_fexp_nonneg m e l H) as H1.
  destruct (shr_fexp prec emax m e l) as [mrs' e']. cbn [fst] in H1.
  pose proof (shr_fexp_nonneg
                (round_nearest_even (shr_m mrs') (loc_of_shr_record mrs'))
                e' loc_Exact
                (round_nearest_even_nonneg _ _ H1)) as H2.
  destruct (shr_fexp prec emax _ e' loc_Exact) as [mrs'' e'']. cbn [fst] in H2.
  destruct (shr_m mrs'') as [|q|q]; [reflexivity | | lia].
  destruct (e'' <=? emax - prec)%Z; reflexivity.
Qed.

Lemma binary_round_sign s m e :
  match binary_round prec emax s m e with
  | S754_zero s' | S754_infinity s' | S754_finite s' _ _ => s' = s
  | S754_nan => False
  end.
Proof.
  unfold binary_round. destruct (shl_align m e _) as [mz ez].
  apply binary_round_aux_sign. lia.
Qed.

Lemma binary_round_aux_opp s m e l :
  binary_round_aux prec emax (negb s) m e l
  = SFopp (binary_round_aux prec emax s m e l).
Proof.
  unfold binary_round_aux.
  destruct (shr_fexp prec emax m e l) as [mrs' e'].
  destruct (shr_fexp prec emax _ e' loc_Exact) as [mrs'' e''].
  destruct (shr_m mrs''); [reflexivity | | reflexivity].
  destruct (e'' <=? emax - prec)%Z; reflexivity.
Qed.

Lemma binary_round_opp s m e :
  binary_round prec emax (negb s) m e = SFopp (binary_round prec emax s m e).
Proof.
  unfold binary_round. destruct (shl_align m e _) as [mz ez].
  apply binary_round_aux_opp.
Qed.

Lemma binary_normalize_opp d e :
  d <> 0%Z ->
  binary_normalize prec emax (- d) e false
  = SFopp (binary_normalize prec emax d e false).
Proof.
  intros Hd. destruct d as [|p|p]; [contradiction | |]; cbn.
  - apply (binary_round_opp false).
  - rewrite <- (binary_round_opp true). reflexivity.
Qed.

Lemma SFmul_opp_r x y :
  SFmul prec emax x (SFopp y) = SFopp (SFmul prec emax x y).
Proof.
  destruct x as [sx|sx| |sx mx ex], y as [sy|sy| |sy my ey]; cbn;
    rewrite <- ?negb_xorb_r; try reflexivity.
  apply binary_round_aux_opp.
Qed.

Lemma SFdiv_opp_r x y :
  SFdiv prec emax x (SFopp y) = SFopp (SFdiv prec emax x y).
Proof.
  destruct x as [sx|sx| |sx mx ex], y as [sy|sy| |sy my ey]; cbn;
    rewrite <- ?negb_xorb_r; try reflexivity.
  destruct (SFdiv_core_binary prec emax (Zpos mx) ex (Zpos my) ey)
    as [[mz ez] lz].
  apply binary_round_aux_opp.
Qed.
End Rounding.

(** ** Float arithmetic: the float32 kernels *)

Section KernelFacts.
Variable ftz : bool.
Import Float32.

Lemma f32_nonneg_cases x :
  nonneg x = true <->
  match x with
  | S754_zero _ | S754_infinity false | S754_finite false _ _ => True
  | _ => False
  end.
Proof.
  destruct x as [s|[]| |[] m e]; cbn; split; intros H;
    try reflexivity; try exact I; try discriminate H; try contradiction.
Qed.

Lemma f32_flush_nonneg x : nonneg x = true -> nonneg (flush ftz x) = true.
Proof.
  destruct x as [s|s| |s m e]; cbn; auto.
  destruct (ftz && _); auto.
Qed.

Lemma f32_flush_is_nan x : is_nan (flush ftz x) = is_nan x.
Proof.
  destruct x as [s|s| |s m e]; cbn; auto. destruct (ftz && _); auto.
Qed.

Lemma f32_flush_opp x : flush ftz (SFopp x) = SFopp (flush ftz x).
Proof.
  destruct x as [s|s| |s m e]; cbn; auto. destruct (ftz && _); auto.
Qed.

Lemma f32_binary_normalize_not_nan prec emax d e :
  is_nan (binary_normalize prec emax d e false) = false.
Proof.
  destruct d as [|p|p]; cbn; [reflexivity | |].
  - pose proof (binary_round_sign prec emax false p e) as H.
    destruct (binary_round prec emax false p e); tauto.
  - pose proof (binary_round_sign prec emax true p e) as H.
    destruct (binary_round prec emax true p e); tauto.
Qed.

Lemma f32_binary_normalize_nonneg prec emax d e :
  (0 <= d)%Z -> nonneg (binary_normalize prec emax d e false) = true.
Proof.
  intros Hd. destruct d as [|p|p]; cbn; [reflexivity | | lia].
  pose proof (binary_round_sign prec emax false p e) as H.
  apply f32_nonneg_cases.
  destruct (binary_round prec emax false p e) as [s|[]| |[] m e'];
    try exact I; try discriminate H; contradiction.
Qed.

Lemma f32_SFadd_nonneg x y :
  nonneg x = true -> nonneg y = true -> nonneg (SFadd 24 128 x y) = true.
Proof.
  intros Hx Hy. apply f32_nonneg_cases in Hx, Hy.
  destruct x as [sx|[]| |[] mx ex]; try contradiction;
    destruct y as [sy|[]| |[] my ey]; try contradiction;
    try reflexivity.
  - destruct sx, sy; reflexivity.
  - cbn [SFadd cond_Zopp]. apply f32_binary_normalize_nonneg. lia.
Qed.

Lemma f32_fadd_nonneg x y :
  nonneg x = true -> nonneg y = true -> nonneg (fadd ftz x y) = true.
Proof.
  intros Hx Hy. unfold fadd.
  apply f32_flush_nonneg, f32_SFadd_nonneg; apply f32_flush_nonneg; assumption.
Qed.

Lemma f32_fold_fadd_nonneg t acc :
  nonneg acc = true -> Forall (fun x => nonneg x = true) t ->
  nonneg (fold_left (fadd ftz) t acc) = true.
Proof.
  revert acc. induction t as [|x t IH]; intros acc Ha Ht; cbn.
  - exact Ha.
  - inversion Ht as [|? ? Hx Ht']; subst.
    apply IH; [apply f32_fadd_nonneg; assumption | exact Ht'].
Qed.

Lemma f32_relu1_nonneg x : is_nan x = false -> nonneg (relu1 x) = true.
Proof.
  destruct x as [s|[]| |[] m e]; cbn; intros H;
    try reflexivity; discriminate H.
Qed.

Lemma f32_SFsub_finite_not_nan sx mx ex y :
  is_nan y = false ->
  is_nan (SFsub 24 128 (S754_finite sx mx ex) y) = false.
Proof.
  destruct y as [sy|sy| |sy my ey]; intros H; try reflexivity;
    [discriminate H|].
  cbn [SFsub]. apply f32_binary_normalize_not_nan.
Qed.

Lemma f32_SFadd_finite_not_nan sx mx ex y :
  is_nan y = false ->
  is_nan (SFadd 24 128 (S754_finite sx mx ex) y) = false.
Proof.
  destruct y as [sy|sy| |sy my ey]; intros H; try reflexivity;
    [discriminate H|].
  cbn [SFadd]. apply f32_binary_normalize_not_nan.
Qed.

Lemma f32_flush_one : flush ftz one = one.
Proof. unfold flush, one. cbn. now rewrite andb_false_r. Qed.

Lemma f32_fsub_one_not_nan x : is_nan x = false -> is_nan (fsub ftz one x) = false.
Proof.
  intros H. unfold fsub. rewrite f32_flush_is_nan, f32_flush_one.
  apply f32_SFsub_finite_not_nan. now rewrite f32_flush_is_nan.
Qed.

Lemma f32_fadd_one_not_nan x : is_nan x = false -> is_nan (fadd ftz one x) = false.
Proof.
  intros H. unfold fadd. rewrite f32_flush_is_nan, f32_flush_one.
  apply f32_SFadd_finite_not_nan. now rewrite f32_flush_is_nan.
Qed.

Lemma f32_reduce_sum_relu_nonneg (g : spec_float -> spec_float) t :
  (forall x, is_nan x = false -> is_nan (g x) = false) ->
  Forall (fun x => is_nan x = false) t ->
  nonneg (reduce_sum ftz (relu (map g t))) = true.
Proof.
  intros Hg Ht. unfold reduce_sum. apply f32_fold_fadd_nonneg; [reflexivity|].
  unfold relu. rewrite map_map. apply Forall_map.
  revert Ht. apply Forall_impl. intros x Hx. apply f32_relu1_nonneg, Hg, Hx.
Qed.

(** The sum of the hinge terms of scores without NaN is not negative. *)
Lemma f32_hinge_sum_nonneg r f :
  Forall (fun x => is_nan x = false) r ->
  Forall (fun x => is_nan x = false) f ->
  nonneg (hinge_sum ftz r f) = true.
Proof.
  intros Hr Hf. unfold hinge_sum, rsub, radd.
  apply f32_fadd_nonneg; apply f32_reduce_sum_relu_nonneg; auto.
  - apply f32_fsub_one_not_nan.
  - apply f32_fadd_one_not_nan.
Qed.

Lemma f32_binary_normalize_pos prec emax p e :
  match binary_normalize prec emax (Zpos p) e false with
  | S754_zero s | S754_infinity s | S754_finite s _ _ => s = false
  | S754_nan => False
  end.
Proof. cbn. apply binary_round_sign. Qed.

Lemma f32_SFdiv_py_one_nonneg y :
  match y with
  | S754_zero s | S754_infinity s | S754_finite s _ _ => s = false
  | S754_nan => False
  end ->
  nonneg (SFdiv 53 1024 py_one y) = true.
Proof.
  destruct y as [sy|sy| |sy my ey]; intros Hy; try contradiction;
    subst; try reflexivity.
  unfold py_one. cbn [SFdiv xorb].
  unfold SFdiv_core_binary. cbv zeta.
  match goal with
  | |- context [Z.div_eucl ?a ?b] =>
      assert (Hm : (0 <= a)%Z);
      [ destruct (_ - _)%Z; try lia; apply Z.shiftl_nonneg; lia
      | pose proof (Z.div_pos a b Hm ltac:(lia)) as Hq;
        unfold Z.div in Hq;
        destruct (Z.div_eucl a b) as [q rr] ]
  end.
  pose proof (binary_round_aux_sign 53 1024 false q) as H.
  match goal with
  | |- context [binary_round_aux 53 1024 false q ?e ?l] =>
      specialize (H e l Hq);
      destruct (binary_round_aux 53 1024 false q e l) as [s|s| |s m e']
  end; try contradiction; subst; reflexivity.
Qed.

Lemma f32_to_float32_nonneg x : nonneg x = true -> nonneg (to_float32 x) = true.
Proof.
  intros Hx. pose proof Hx as Hx'. apply f32_nonneg_cases in Hx'.
  destruct x as [sy|[]| |[] m e]; try contradiction; try exact Hx.
  cbn [to_float32]. pose proof (binary_round_sign 24 128 false m e) as H.
  apply f32_nonneg_cases.
  destruct (binary_round 24 128 false m e) as [s|[]| |[] m' e'];
    try exact I; try discriminate H; contradiction.
Qed.

(** For a positive divisor the float32 factor is not negative. *)
Lemma f32_reciprocal_nonneg b : (0 < b)%Z -> nonneg (reciprocal b) = true.
Proof.
  intros Hb. unfold reciprocal.
  apply f32_to_float32_nonneg, f32_SFdiv_py_one_nonneg.
  destruct b as [|p|p]; try lia. apply f32_binary_normalize_pos.
Qed.

(** A product of two non-negative floats is not negative, or it is the NaN
    of infinity times zero. *)
Lemma f32_fmul_nonneg x y :
  nonneg x = true -> nonneg y = true ->
  nonneg (fmul ftz x y) = true
  \/ (fmul ftz x y = S754_nan
      /\ (flush ftz x = S754_infinity false /\ is_zero (flush ftz y) = true
          \/ is_zero (flush ftz x) = true
             /\ flush ftz y = S754_infinity false)).
Proof.
  intros Hx Hy. unfold fmul.
  apply f32_flush_nonneg in Hx, Hy.
  destruct (flush ftz x) as [sx|[]| |[] mx ex] eqn:Ex;
    try (apply f32_nonneg_cases in Hx; contradiction);
    destruct (flush ftz y) as [sy|[]| |[] my ey] eqn:Ey;
    try (apply f32_nonneg_cases in Hy; contradiction);
    cbn [SFmul xorb];
    try (left; apply f32_flush_nonneg; apply f32_nonneg_cases; exact I);
    try (right; split; [reflexivity|]; auto; fail).
  left. apply f32_flush_nonneg.
  pose proof (binary_round_aux_sign 24 128 false
                (Zpos (mx * my)) (ex + ey) loc_Exact ltac:(lia)) as H.
  apply f32_nonneg_cases.
  destruct (binary_round_aux 24 128 false _ _ _) as [s|[]| |[] m e];
    try exact I; try discriminate H; contradiction.
Qed.

(** *** Negating the divisor *)

Lemma f32_to_float32_opp x : to_float32 (SFopp x) = SFopp (to_float32 x).
Proof.
  destruct x as [s|s| |s m e]; try reflexivity.
  cbn [to_float32 SFopp]. apply binary_round_opp.
Qed.

Lemma f32_reciprocal_opp b :
  b <> 0%Z -> reciprocal (- b) = SFopp (reciprocal b).
Proof.
  intros Hb. unfold reciprocal.
  rewrite binary_normalize_opp by exact Hb.
  rewrite SFdiv_opp_r. apply f32_to_float32_opp.
Qed.

Lemma f32_fmul_opp_r x y : fmul ftz x (SFopp y) = SFopp (fmul ftz x y).
Proof.
  unfold fmul. rewrite f32_flush_opp, SFmul_opp_r. apply f32_flush_opp.
Qed.
End KernelFacts.

(** ** Float arithmetic: halving *)

Section Halving.
Variables prec emax : Z.
Hypothesis prec_pos : (0 < prec)%Z.

Lemma digits2_pos_bounds p :
  (2 ^ (Zpos (digits2_pos p) - 1) <= Zpos p < 2 ^ Zpos (digits2_pos p))%Z.
Proof.
  induction p as [p IH|p IH|]; cbn [digits2_pos].
  - rewrite Pos2Z.inj_succ.
    replace (Z.succ (Zpos (digits2_pos p)) - 1)%Z
      with (Z.succ (Zpos (digits2_pos p) - 1)) by lia.
    rewrite !Z.pow_succ_r by lia. lia.
  - rewrite Pos2Z.inj_succ.
    replace (Z.succ (Zpos (digits2_pos p)) - 1)%Z
      with (Z.succ (Zpos (digits2_pos p) - 1)) by lia.
    rewrite !Z.pow_succ_r by lia. lia.
  - change (1 <= 1 < 2)%Z. lia.
Qed.

Lemma Zdigits2_le m k :
  (0 <= k)%Z -> (0 <= m <= 2 ^ k)%Z -> (Zdigits2 m <= k + 1)%Z.
Proof.
  intros Hk [H0 Hm]. destruct m as [|p|p]; cbn; try lia.
  pose proof (digits2_pos_bounds p) as [Hlo _].
  destruct (Z_lt_le_dec (k + 1) (Zpos (digits2_pos p))) as [Hlt|]; [|lia].
  exfalso.
  assert (2 ^ (k + 1) <= 2 ^ (Zpos (digits2_pos p) - 1))%Z
    by (apply Z.pow_le_mono_r; lia).
  rewrite Z.pow_add_r in H by lia. lia.
Qed.

Lemma shr_1_div mrs :
  (0 <= shr_m mrs)%Z -> shr_m (shr_1 mrs) = (shr_m mrs / 2)%Z.
Proof.
  destruct mrs as [m r s]. destruct m as [|[p|p|]|p]; cbn [shr_1 shr_m];
    intros H; try lia; try reflexivity.
  - apply (Z.div_unique (Zpos p~1) 2 (Zpos p) 1); lia.
  - apply (Z.div_unique (Zpos p~0) 2 (Zpos p) 0); lia.
Qed.

Lemma iter_shr_1_div p mrs :
  (0 <= shr_m mrs)%Z ->
  shr_m (iter_pos shr_1 p mrs) = (shr_m mrs / 2 ^ Zpos p)%Z.
Proof.
  revert mrs. induction p as [p IH|p IH|]; intros mrs H; cbn [iter_pos].
  - rewrite IH by (apply iter_shr_1_nonneg, shr_1_nonneg, H).
    rewrite IH by (apply shr_1_nonneg, H).
    rewrite shr_1_div by exact H.
    rewrite !Z.div_div by lia.
    f_equal.
    replace (Zpos p~1) with (1 + Zpos p + Zpos p)%Z by lia.
    rewrite !Z.pow_add_r by lia. lia.
  - rewrite IH by (apply iter_shr_1_nonneg, H).
    rewrite IH by exact H.
    rewrite !Z.div_div by lia.
    f_equal.
    replace (Zpos p~0) with (Zpos p + Zpos p)%Z by lia.
    rewrite !Z.pow_add_r by lia. lia.
  - rewrite shr_1_div by exact H. reflexivity.
Qed.


(** One exponent lower, the shift is the same, as long as the result stays
    above the smallest exponent. *)
Lemma shr_fexp_half m e l mrs e1 :
  shr_fexp prec emax m e l = (mrs, e1) ->
  (emin prec emax + 1 <= e1)%Z ->
  shr_fexp prec emax m (e - 1) l = (mrs, (e1 - 1)%Z).
Proof.
  unfold shr_fexp, shr, fexp.
  set (d := Zdigits2 m).
  destruct (Z.max (d + e - prec) (emin prec emax) - e)%Z as [|n|n] eqn:En;
    intros H He; injection H as <- <-.
  - destruct (Z.max (d + (e - 1) - prec) (emin prec emax) - (e - 1))%Z
      eqn:En'; try reflexivity. lia.
  - replace (Z.max (d + (e - 1) - prec) (emin prec emax) - (e - 1))%Z
      with (Zpos n) by lia.
    f_equal. lia.
  - destruct (Z.max (d + (e - 1) - prec) (emin prec emax) - (e - 1))%Z
      eqn:En'; try reflexivity. lia.
Qed.

Lemma round_nearest_even_le m l :
  (m <= round_nearest_even m l <= m + 1)%Z.
Proof.
  destruct l as [|[]]; cbn; try lia. destruct (Z.even m); lia.
Qed.


End Halving.

(** ** Float arithmetic: normal results *)

Section Normal.
Variables prec emax : Z.
Hypothesis prec_pos : (0 < prec)%Z.

Lemma Zdigits2_bounds m :
  (0 < m)%Z -> (2 ^ (Zdigits2 m - 1) <= m < 2 ^ Zdigits2 m)%Z.
Proof.
  destruct m as [|p|p]; try lia. intros _. apply digits2_pos_bounds.
Qed.

Lemma Zdigits2_unique m k :
  (2 ^ (k - 1) <= m < 2 ^ k)%Z -> (0 < k)%Z -> Zdigits2 m = k.
Proof.
  intros [Hlo Hhi] Hk.
  assert (Hm : (0 < m)%Z).
  { apply Z.lt_le_trans with (2 := Hlo). apply Z.pow_pos_nonneg; lia. }
  destruct (Zdigits2_bounds m Hm) as [Dlo Dhi].
  assert (Hd : (0 < Zdigits2 m)%Z) by (destruct m; cbn; lia).
  destruct (Z.lt_trichotomy (Zdigits2 m) k) as [Hlt|[Heq|Hgt]];
    [exfalso | exact Heq | exfalso].
  - assert (2 ^ Zdigits2 m <= 2 ^ (k - 1))%Z
      by (apply Z.pow_le_mono_r; lia). lia.
  - assert (2 ^ k <= 2 ^ (Zdigits2 m - 1))%Z
      by (apply Z.pow_le_mono_r; lia). lia.
Qed.

Lemma shr_fexp_exp_ge m e l mrs e1 :
  shr_fexp prec emax m e l = (mrs, e1) -> (e <= e1)%Z.
Proof.
  unfold shr_fexp, shr.
  destruct (fexp prec emax (Zdigits2 m + e) - e)%Z;
    intros H; injection H as <- <-; lia.
Qed.

(** Halving, stated on the exponent after the first shift. *)
Lemma binary_round_aux_half_gen s mx ex lx s' m e mrs' e' :
  shr_fexp prec emax mx ex lx = (mrs', e') ->
  (emin prec emax + 1 <= e')%Z ->
  binary_round_aux prec emax s mx ex lx = S754_finite s' m e ->
  binary_round_aux prec emax s mx (ex - 1) lx = S754_finite s' m (e - 1).
Proof.
  intros E1 He'. unfold binary_round_aux. rewrite E1.
  rewrite (shr_fexp_half prec emax _ _ _ _ _ E1) by lia.
  destruct (shr_fexp prec emax _ e' loc_Exact) as [mrs'' e''] eqn:E2.
  pose proof (shr_fexp_exp_ge _ _ _ _ _ E2) as Hge.
  rewrite (shr_fexp_half prec emax _ _ _ _ _ E2) by lia.
  destruct (shr_m mrs'') as [|q|q]; try discriminate.
  destruct (Z.leb_spec e'' (emax - prec)); try discriminate.
  intros Hfin. injection Hfin as <- <- <-.
  destruct (Z.leb_spec (e'' - 1) (emax - prec)); [reflexivity | lia].
Qed.

(** The first shift of a significand of at least [prec] digits in the
    normal range. *)
Lemma shr_fexp_normal mx ex lx :
  (0 < mx)%Z -> (prec <= Zdigits2 mx)%Z ->
  (emin prec emax <= Zdigits2 mx + ex - prec)%Z ->
  exists mrs',
    shr_fexp prec emax mx ex lx = (mrs', (Zdigits2 mx + ex - prec)%Z)
    /\ (2 ^ (prec - 1) <= shr_m mrs' < 2 ^ prec)%Z.
Proof.
  intros Hm Hd Hmin.
  destruct (Zdigits2_bounds mx Hm) as [Dlo Dhi].
  unfold shr_fexp, shr, fexp.
  set (d := Zdigits2 mx) in *.
  destruct (Z.max (d + ex - prec) (emin prec emax) - ex)%Z
    as [|n|n] eqn:En; try lia.
  - eexists. split; [f_equal; lia|]. rewrite shr_m_of_loc.
    replace prec with d by lia. split; assumption.
  - eexists. split; [f_equal; lia|].
    rewrite iter_shr_1_div by (rewrite shr_m_of_loc; lia).
    rewrite shr_m_of_loc.
    assert (Hn : Zpos n = (d - prec)%Z) by lia.
    split.
    + apply Z.div_le_lower_bound; [lia|].
      rewrite <- Z.pow_add_r by lia.
      replace (Zpos n + (prec - 1))%Z with (d - 1)%Z by lia. exact Dlo.
    + apply Z.div_lt_upper_bound; [lia|].
      rewrite <- Z.pow_add_r by lia.
      replace (Zpos n + prec)%Z with d by lia. exact Dhi.
Qed.

(** In the normal range and below overflow, rounding gives a finite float
    whose significand has [prec] digits. *)
Lemma binary_round_aux_normal s mx ex lx :
  (0 < mx)%Z -> (prec <= Zdigits2 mx)%Z ->
  (emin prec emax <= Zdigits2 mx + ex - prec)%Z ->
  (Zdigits2 mx + ex + 1 <= emax)%Z ->
  exists m e,
    binary_round_aux prec emax s mx ex lx = S754_finite s m e
    /\ Zpos (digits2_pos m) = prec
    /\ (Zdigits2 mx + ex - prec <= e <= Zdigits2 mx + ex - prec + 1)%Z.
Proof.
  intros Hm Hd Hmin Hmax.
  destruct (shr_fexp_normal mx ex lx Hm Hd Hmin) as [mrs' [E1 Hb]].
  unfold binary_round_aux. rewrite E1.
  set (e' := (Zdigits2 mx + ex - prec)%Z) in *.
  set (m1 := round_nearest_even (shr_m mrs') (loc_of_shr_record mrs')).
  pose proof (round_nearest_even_le (shr_m mrs') (loc_of_shr_record mrs'))
    as Hm1. fold m1 in Hm1.
  assert (Hpow : (2 ^ prec = 2 * 2 ^ (prec - 1))%Z).
  { rewrite <- Z.pow_succ_r by lia. f_equal. lia. }
  destruct (Z.eq_dec m1 (2 ^ prec)) as [Heq|Hne].
  - (* the significand was rounded up to the next power of two *)
    assert (Hd1 : Zdigits2 m1 = (prec + 1)%Z).
    { apply Zdigits2_unique; [|lia].
      replace (prec + 1 - 1)%Z with prec by lia.
      rewrite Z.pow_add_r by lia. change (2 ^ 1)%Z with 2%Z. lia. }
    unfold shr_fexp, shr, fexp. rewrite Hd1.
    replace (Z.max (prec + 1 + e' - prec) (emin prec emax) - e')%Z
      with 1%Z by lia.
    cbn [iter_pos shr_record_of_loc].
    rewrite shr_1_div by (cbn; lia). cbn [shr_m].
    assert (Hhalf : (m1 / 2 = 2 ^ (prec - 1))%Z).
    { rewrite Heq, Hpow. rewrite Z.mul_comm. apply Z.div_mul. lia. }
    rewrite Hhalf.
    assert (Hpos : (0 < 2 ^ (prec - 1))%Z) by (apply Z.pow_pos_nonneg; lia).
    destruct (2 ^ (prec - 1))%Z as [|q|q] eqn:Eq; try lia.
    destruct (Z.leb_spec (e' + 1) (emax - prec)); [|lia].
    exists q, (e' + 1)%Z. split; [reflexivity|]. split; [|lia].
    change (Zdigits2 (Zpos q) = prec). apply Zdigits2_unique; [|lia].
    rewrite <- Eq at 1. lia.
  - assert (Hd1 : Zdigits2 m1 = prec)
      by (apply Zdigits2_unique; lia).
    unfold shr_fexp, shr, fexp. rewrite Hd1.
    replace (Z.max (prec + e' - prec) (emin prec emax) - e')%Z
      with 0%Z by lia.
    cbn [shr_record_of_loc shr_m].
    destruct m1 as [|q|q] eqn:Eq; try lia.
    destruct (Z.leb_spec e' (emax - prec)); [|lia].
    exists q, e'. split; [reflexivity|]. split; [exact Hd1 | lia].
Qed.

(** One exponent lower, a result in the normal range keeps its
    significand. *)
Lemma binary_round_aux_half_normal s mx ex lx :
  (0 < mx)%Z -> (prec <= Zdigits2 mx)%Z ->
  (emin prec emax + 1 <= Zdigits2 mx + ex - prec)%Z ->
  (Zdigits2 mx + ex + 1 <= emax)%Z ->
  exists m e,
    binary_round_aux prec emax s mx ex lx = S754_finite s m e
    /\ binary_round_aux prec emax s mx (ex - 1) lx = S754_finite s m (e - 1)
    /\ Zpos (digits2_pos m) = prec
    /\ (Zdigits2 mx + ex - prec <= e <= Zdigits2 mx + ex - prec + 1)%Z.
Proof.
  intros Hm Hd Hmin Hmax.
  destruct (binary_round_aux_normal s mx ex lx Hm Hd ltac:(lia) Hmax)
    as [m [e [H [Hdm He]]]].
  destruct (shr_fexp_normal mx ex lx Hm Hd ltac:(lia)) as [mrs' [E1 _]].
  exists m, e. repeat split; try assumption; try lia.
  apply (binary_round_aux_half_gen _ _ _ _ _ _ _ _ _ E1); [lia | exact H].
Qed.
End Normal.

(** ** Float arithmetic: doubling the divisor *)

Lemma iter_pos_swap {A : Type} (f : A -> A) p x :
  iter_pos f p (f x) = f (iter_pos f p x).
Proof.
  revert x. induction p as [p IH|p IH|]; intros x; cbn.
  - rewrite !IH. reflexivity.
  - rewrite !IH. reflexivity.
  - reflexivity.
Qed.

Lemma iter_pos_Pos_iter {A : Type} (f : A -> A) p x :
  iter_pos f p x = Pos.iter f x p.
Proof.
  revert x. induction p as [p IH|p IH|]; intros x; cbn.
  - rewrite iter_pos_swap, iter_pos_swap, !IH. reflexivity.
  - rewrite !IH. reflexivity.
  - reflexivity.
Qed.

Lemma iter_pos_succ_r {A : Type} (f : A -> A) p x :
  iter_pos f (Pos.succ p) x = iter_pos f p (f x).
Proof. rewrite !iter_pos_Pos_iter. apply Pos.iter_succ_r. Qed.

Lemma digits2_pos_iter_xO p k :
  digits2_pos (Pos.iter xO p k) = (digits2_pos p + k)%positive.
Proof.
  induction k as [|k IH] using Pos.peano_ind.
  - cbn. lia.
  - rewrite Pos.iter_succ. cbn [digits2_pos]. rewrite IH. lia.
Qed.

Lemma Zdigits2_lt m k :
  (0 < m < 2 ^ k)%Z -> (Zdigits2 m <= k)%Z.
Proof.
  intros [H0 Hm]. destruct (Zdigits2_bounds m H0) as [Hlo _].
  destruct (Z_lt_le_dec k (Zdigits2 m)) as [Hlt|]; [|lia].
  exfalso.
  assert (2 ^ k <= 2 ^ (Zdigits2 m - 1))%Z.
  { apply Z.pow_le_mono_r; [lia|]. lia. }
  lia.
Qed.

Lemma Zdigits2_ge m k :
  (0 < k)%Z -> (2 ^ (k - 1) <= m)%Z -> (k <= Zdigits2 m)%Z.
Proof.
  intros Hk Hm.
  assert (H0 : (0 < m)%Z).
  { apply Z.lt_le_trans with (2 := Hm). apply Z.pow_pos_nonneg; lia. }
  destruct (Zdigits2_bounds m H0) as [_ Hhi].
  assert (Hd : (0 < Zdigits2 m)%Z) by (destruct m; cbn; lia).
  destruct (Z_lt_le_dec (Zdigits2 m) k) as [Hlt|]; [|lia].
  exfalso.
  assert (2 ^ Zdigits2 m <= 2 ^ (k - 1))%Z
    by (apply Z.pow_le_mono_r; lia).
  lia.
Qed.

Section Doubling.
Variables prec emax : Z.
Hypothesis prec_pos : (0 < prec)%Z.

(** A significand with a trailing zero bit is the significand without it,
    one exponent higher. *)
Lemma binary_round_aux_xO s p e :
  (prec <= Zpos (digits2_pos p))%Z ->
  (emin prec emax <= Zpos (digits2_pos p) + 1 + e - prec)%Z ->
  binary_round_aux prec emax s (Zpos p~0) e loc_Exact
  = binary_round_aux prec emax s (Zpos p) (e + 1) loc_Exact.
Proof.
  intros Hd Hmin. unfold binary_round_aux.
  assert (E : shr_fexp prec emax (Zpos p~0) e loc_Exact
              = shr_fexp prec emax (Zpos p) (e + 1) loc_Exact).
  { unfold shr_fexp, shr, fexp. cbn [Zdigits2 digits2_pos].
    rewrite Pos2Z.inj_succ.
    set (d := Zpos (digits2_pos p)) in *.
    destruct (Z.eq_dec d prec) as [Heq|Hne].
    - replace (Z.max (Z.succ d + e - prec) (emin prec emax) - e)%Z
        with 1%Z by lia.
      replace (Z.max (d + (e + 1) - prec) (emin prec emax) - (e + 1))%Z
        with 0%Z by lia.
      reflexivity.
    - replace (Z.max (Z.succ d + e - prec) (emin prec emax) - e)%Z
        with (Zpos (Pos.succ (Z.to_pos (d - prec)))) by lia.
      replace (Z.max (d + (e + 1) - prec) (emin prec emax) - (e + 1))%Z
        with (Zpos (Z.to_pos (d - prec))) by lia.
      rewrite iter_pos_succ_r. cbn [shr_record_of_loc shr_1 orb].
      f_equal. lia. }
  rewrite E. reflexivity.
Qed.

(** Rounding [2 * p] and [p]: the same significand, one exponent apart. *)
Lemma binary_round_double s p e :
  (emin prec emax + 1 <= Zpos (digits2_pos p) + e + 1 - prec)%Z ->
  (Zpos (digits2_pos p) + e + 2 <= emax)%Z ->
  exists m e',
    binary_round prec emax s (xO p) e = S754_finite s m e'
    /\ binary_round prec emax s p e = S754_finite s m (e' - 1)
    /\ Zpos (digits2_pos m) = prec
    /\ (Zpos (digits2_pos p) + e + 1 - prec <= e'
        <= Zpos (digits2_pos p) + e + 2 - prec)%Z.
Proof.
  intros Hmin Hmax. unfold binary_round, shl_align, fexp.
  cbn [digits2_pos]. rewrite Pos2Z.inj_succ.
  set (d := Zpos (digits2_pos p)) in *.
  replace (Z.max (Z.succ d + e - prec) (emin prec emax) - e)%Z
    with (d + 1 - prec)%Z by lia.
  replace (Z.max (d + e - prec) (emin prec emax) - e)%Z
    with (d - prec)%Z by lia.
  replace (Z.max (Z.succ d + e - prec) (emin prec emax))
    with (d + 1 + e - prec)%Z by lia.
  replace (Z.max (d + e - prec) (emin prec emax))
    with (d + e - prec)%Z by lia.
  destruct (Z.lt_trichotomy (d + 1) prec) as [Hlt|[Heq|Hgt]].
  - (* both significands are shifted left to [prec] digits *)
    destruct (d + 1 - prec)%Z as [|k|k] eqn:Ek; try lia.
    destruct (d - prec)%Z as [|k'|k'] eqn:Ek'; try lia.
    assert (Hk : k' = Pos.succ k) by lia. subst k'.
    rewrite Pos.iter_succ_r.
    set (mz := Pos.iter xO (xO p) k).
    assert (Hmz : Zpos (digits2_pos mz) = prec).
    { subst mz. rewrite digits2_pos_iter_xO. cbn [digits2_pos]. lia. }
    destruct (binary_round_aux_half_normal prec emax prec_pos s
                (Zpos mz) (d + 1 + e - prec) loc_Exact)
      as [m [e' [H1 [H2 [Hm He]]]]];
      cbn [Zdigits2]; try lia.
    exists m, e'. split; [exact H1|]. split; [|split; [exact Hm|]].
    + replace (d + e - prec)%Z with (d + 1 + e - prec - 1)%Z by lia.
      exact H2.
    + cbn [Zdigits2] in He. lia.
  - (* only [p] is shifted, by one digit *)
    replace (d + 1 - prec)%Z with 0%Z by lia.
    replace (d - prec)%Z with (Zneg 1) by lia.
    cbn [Pos.iter].
    destruct (binary_round_aux_half_normal prec emax prec_pos s
                (Zpos p~0) e loc_Exact)
      as [m [e' [H1 [H2 [Hm He]]]]];
      cbn [Zdigits2 digits2_pos]; rewrite ?Pos2Z.inj_succ; try lia.
    exists m, e'. split; [exact H1|]. split; [|split; [exact Hm|]].
    + replace (d + e - prec)%Z with (e - 1)%Z by lia. exact H2.
    + cbn [Zdigits2 digits2_pos] in He. rewrite Pos2Z.inj_succ in He. lia.
  - (* neither is shifted left *)
    destruct (d + 1 - prec)%Z as [|k|k] eqn:Ek; try lia.
    assert (Hnn : (0 <= d - prec)%Z) by lia.
    assert (E : (let (mz, ez) :=
                   match (d - prec)%Z with
                   | Zneg k0 => (Pos.iter xO p k0, (d + e - prec)%Z)
                   | _ => (p, e)
                   end in
                 binary_round_aux prec emax s (Zpos mz) ez loc_Exact)
                = binary_round_aux prec emax s (Zpos p) e loc_Exact).
    { destruct (d - prec)%Z; try lia; reflexivity. }
    rewrite E. clear E.
    rewrite binary_round_aux_xO by (fold d; lia).
    destruct (binary_round_aux_half_normal prec emax prec_pos s
                (Zpos p) (e + 1) loc_Exact)
      as [m [e' [H1 [H2 [Hm He]]]]];
      cbn [Zdigits2]; fold d; try lia.
    exists m, e'. split; [exact H1|]. split; [|split; [exact Hm|]].
    + replace e with (e + 1 - 1)%Z at 1 by lia. exact H2.
    + cbn [Zdigits2] in He. fold d in He. lia.
Qed.
End Doubling.

(** ** Float arithmetic: the float32 factor of [b] and of [2 * b] *)

(** [1.0 / y] and [1.0 / (2 * y)] in binary64. *)
Lemma SFdiv_py_one_double my ey :
  Zpos (digits2_pos my) = 53%Z ->
  (-900 <= ey <= 900)%Z ->
  exists mq eq,
    SFdiv 53 1024 Float32.py_one (S754_finite false my ey)
    = S754_finite false mq eq
    /\ SFdiv 53 1024 Float32.py_one (S754_finite false my (ey + 1))
       = S754_finite false mq (eq - 1)
    /\ Zpos (digits2_pos mq) = 53%Z
    /\ (-105 - ey <= eq <= -103 - ey)%Z.
Proof.
  intros Hd Hey.
  assert (Hmy : (2 ^ 52 <= Zpos my < 2 ^ 53)%Z).
  { pose proof (digits2_pos_bounds my) as H. rewrite Hd in H. exact H. }
  assert (Hcore : forall e2, (-900 <= e2 <= 901)%Z ->
            SFdiv_core_binary 53 1024 4503599627370496 (-52) (Zpos my) e2
            = (2 ^ 105 / Zpos my, -105 - e2,
               new_location (Zpos my) (2 ^ 105 mod Zpos my))%Z).
  { intros e2 He2. unfold SFdiv_core_binary, fexp.
    cbn [Zdigits2]. rewrite Hd.
    change (Zpos (digits2_pos 4503599627370496)) with 53%Z.
    replace (Z.min (Z.max (53 + -52 - (53 + e2) - 53) (emin 53 1024))
                   (-52 - e2))%Z with (-105 - e2)%Z
      by (unfold emin; lia).
    replace (-52 - e2 - (-105 - e2))%Z with 53%Z by lia.
    change (Z.shiftl 4503599627370496 53) with (2 ^ 105)%Z.
    unfold Z.div, Z.modulo.
    destruct (Z.div_eucl (2 ^ 105) (Zpos my)) as [q rr]. reflexivity. }
  unfold Float32.py_one. cbn [SFdiv xorb].
  rewrite (Hcore ey) by lia. rewrite (Hcore (ey + 1)%Z) by lia.
  set (q := (2 ^ 105 / Zpos my)%Z).
  assert (Hq : (2 ^ 52 <= q <= 2 ^ 53)%Z).
  { subst q. split.
    - apply Z.div_le_lower_bound; [lia|].
      change (2 ^ 105)%Z with (2 ^ 53 * 2 ^ 52)%Z. nia.
    - apply Z.div_le_upper_bound; [lia|].
      change (2 ^ 105)%Z with (2 ^ 52 * 2 ^ 53)%Z. nia. }
  assert (Hdq : (53 <= Zdigits2 q <= 54)%Z).
  { split.
    - apply Zdigits2_ge; [lia|]. change (53 - 1)%Z with 52%Z. lia.
    - apply (Zdigits2_le q 53); lia. }
  destruct (binary_round_aux_half_normal 53 1024 eq_refl false
              q (-105 - ey) (new_location (Zpos my) (2 ^ 105 mod Zpos my)))
    as [mq [eq [H1 [H2 [Hm He]]]]]; try (unfold emin; lia).
  exists mq, eq. split; [exact H1|]. split; [|split; [exact Hm | lia]].
  replace (-105 - (ey + 1))%Z with (-105 - ey - 1)%Z by lia. exact H2.
Qed.

(** A binary64 and its half, turned into float32. *)
Lemma to_float32_double mq eq :
  Zpos (digits2_pos mq) = 53%Z ->
  (-177 <= eq <= 70)%Z ->
  exists mc ec,
    Float32.to_float32 (S754_finite false mq eq) = S754_finite false mc ec
    /\ Float32.to_float32 (S754_finite false mq (eq - 1))
       = S754_finite false mc (ec - 1)
    /\ Zpos (digits2_pos mc) = 24%Z
    /\ (eq + 29 <= ec <= eq + 30)%Z.
Proof.
  intros Hd Heq. unfold Float32.to_float32, binary_round, shl_align, fexp.
  rewrite Hd.
  replace (Z.max (53 + eq - 24) (emin 24 128) - eq)%Z with 29%Z
    by (unfold emin; lia).
  replace (Z.max (53 + (eq - 1) - 24) (emin 24 128) - (eq - 1))%Z
    with 29%Z by (unfold emin; lia).
  destruct (binary_round_aux_half_normal 24 128 eq_refl false
              (Zpos mq) eq loc_Exact)
    as [mc [ec [H1 [H2 [Hm He]]]]];
    cbn [Zdigits2]; rewrite ?Hd; try (unfold emin; lia).
  exists mc, ec. split; [exact H1|]. split; [exact H2|].
  split; [exact Hm|]. cbn [Zdigits2] in He. rewrite Hd in He. lia.
Qed.

(** For [0 < b < 2 ** 124] the float32 factor of [b] is a positive normal
    float32, and the factor of [2 * b] is exactly its half. *)
Lemma f32_reciprocal_double b :
  (0 < b < 2 ^ 124)%Z ->
  exists mc ec,
    Float32.reciprocal b = S754_finite false mc ec
    /\ Float32.reciprocal (2 * b) = S754_finite false mc (ec - 1)
    /\ Zpos (digits2_pos mc) = 24%Z.
Proof.
  intros Hb. destruct b as [|p|p]; try lia.
  unfold Float32.reciprocal.
  change (2 * Zpos p)%Z with (Zpos (xO p)). cbn [binary_normalize].
  assert (Hd : (1 <= Zpos (digits2_pos p) <= 124)%Z).
  { split; [lia|]. apply (Zdigits2_lt (Zpos p) 124). lia. }
  destruct (binary_round_double 53 1024 eq_refl false p 0)
    as [my [ey [Hy2 [Hy1 [Hdy Hey]]]]]; try (unfold emin; lia).
  rewrite Hy1, Hy2.
  destruct (SFdiv_py_one_double my (ey - 1) Hdy ltac:(lia))
    as [mq [eq [Hq1 [Hq2 [Hdq Heq]]]]].
  replace (ey - 1 + 1)%Z with ey in Hq2 by lia.
  rewrite Hq1, Hq2.
  destruct (to_float32_double mq eq Hdq ltac:(lia))
    as [mc [ec [Hc1 [Hc2 [Hdc _]]]]].
  exists mc, ec. auto.
Qed.

(** ** The hinge losses *)

Lemma float_max_int_value :
  float_max_int = (2 ^ 1024 - 2 ^ 970)%Z
  /\ binary_normalize 53 1024 (float_max_int - 1) 0 false
     = S754_finite false 9007199254740991 971
  /\ binary_normalize 53 1024 float_max_int 0 false = S754_infinity false.
Proof. repeat split; vm_compute; reflexivity. Qed.

Section LossFacts.
Variable ftz : bool.

Lemma batch_factor_ok b :
  b <> 0%Z -> (Z.abs b < float_max_int)%Z ->
  Float32.batch_factor b = Ok (Float32.reciprocal b).
Proof.
  intros Hb Hlt.
  unfold Float32.batch_factor, Float32.float_truediv, Float32.float_of_int.
  destruct (Z.leb_spec float_max_int (Z.abs b)); [lia|].
  cbn [bind ret Monad_Result].
  destruct (Z.eqb_spec b 0); [contradiction | reflexivity].
Qed.

Lemma batch_factor_zero :
  Float32.batch_factor 0 = Raise ZeroDivisionError.
Proof. reflexivity. Qed.

Lemma batch_factor_overflow b :
  (float_max_int <= Z.abs b)%Z ->
  Float32.batch_factor b = Raise OverflowError.
Proof.
  intros Hb.
  unfold Float32.batch_factor, Float32.float_truediv, Float32.float_of_int.
  destruct (Z.leb_spec float_max_int (Z.abs b)); [reflexivity | lia].
Qed.

(** Which of the three outcomes a divisor has. *)
Lemma batch_factor_cases b :
  (b = 0%Z /\ Float32.batch_factor b = Raise ZeroDivisionError)
  \/ (b <> 0%Z /\ (Z.abs b < float_max_int)%Z
      /\ Float32.batch_factor b = Ok (Float32.reciprocal b))
  \/ ((float_max_int <= Z.abs b)%Z
      /\ Float32.batch_factor b = Raise OverflowError).
Proof.
  destruct (Z.eq_dec b 0) as [->|Hb].
  - left. split; reflexivity.
  - destruct (Z_lt_le_dec (Z.abs b) float_max_int) as [Hlt|Hge].
    + right; left. auto using batch_factor_ok.
    + right; right. auto using batch_factor_overflow.
Qed.

Lemma discriminator_of_factor r f b :
  Float32.discriminator_hinge_loss ftz r f b
  = match Float32.batch_factor b with
    | Ok c => Ok (Float32.fmul ftz (Float32.hinge_sum ftz r f) c)
    | Raise e => Raise e
    end.
Proof. reflexivity. Qed.

Lemma generator_of_factor f b :
  Float32.generator_hinge_loss ftz f b
  = match Float32.batch_factor b with
    | Ok c => Ok (Float32.fmul ftz (SFopp (Float32.reduce_sum ftz f)) c)
    | Raise e => Raise e
    end.
Proof. reflexivity. Qed.

Lemma full_of_factor r f b :
  Float32.full_hinge_loss ftz r f b
  = match Float32.batch_factor b with
    | Ok c => Ok (Float32.fmul ftz (SFopp (Float32.reduce_sum ftz f)) c,
                  Float32.fmul ftz (Float32.hinge_sum ftz r f) c)
    | Raise e => Raise e
    end.
Proof.
  unfold Float32.full_hinge_loss.
  rewrite generator_of_factor, discriminator_of_factor.
  destruct (Float32.batch_factor b); reflexivity.
Qed.
End LossFacts.








(** C3, as the code has it: for [0 < global_batch_size < 2 ** 1024 - 2 **
    970] both losses return and [full_hinge_loss] returns the pair of their
    values, the generator loss first; from [2 ** 1024 - 2 ** 970] on, all
    three raise [OverflowError]. *)
Theorem full_hinge_loss_pair
    (ftz : bool) (r f : Float32.Tensor) (b : Z) :
  (0 < b)%Z ->
  ((b < float_max_int)%Z
   /\ exists g d : spec_float,
        Float32.generator_hinge_loss ftz f b = Ok g
        /\ Float32.discriminator_hinge_loss ftz r f b = Ok d
        /\ Float32.full_hinge_loss ftz r f b = Ok (g, d))
  \/
  ((float_max_int <= b)%Z
   /\ Float32.generator_hinge_loss ftz f b = Raise OverflowError
   /\ Float32.discriminator_hinge_loss ftz r f b = Raise OverflowError
   /\ Float32.full_hinge_loss ftz r f b = Raise OverflowError).
Proof.
  intros Hb.
  rewrite full_of_factor, generator_of_factor, discriminator_of_factor.
  destruct (Z_lt_le_dec b float_max_int) as [Hlt|Hge].
  - left. split; [exact Hlt|].
    rewrite batch_factor_ok by lia. do 2 eexists. repeat split.
  - right. split; [exact Hge|].
    rewrite batch_factor_overflow by lia. repeat split.
Qed.

Lemma full_hinge_loss_pair_witness :
  (0 < 2)%Z
  /\ exists g d : spec_float,
       Float32.generator_hinge_loss false [Float32.of_int 1] 2 = Ok g
       /\ Float32.discriminator_hinge_loss false
            [Float32.of_int 0] [Float32.of_int 1] 2 = Ok d
       /\ Float32.full_hinge_loss false
            [Float32.of_int 0] [Float32.of_int 1] 2 = Ok (g, d).
Proof.
  split; [reflexivity|].
  destruct (full_hinge_loss_pair false
              [Float32.of_int 0] [Float32.of_int 1] 2 eq_refl)
    as [[_ H]|[Hge _]].
  - exact H.
  - vm_compute in Hge. exfalso. apply Hge. reflexivity.
Defined.

(** C3 as stated fails: with [global_batch_size = 2 ** 1024] no pair is
    returned, [full_hinge_loss] raises [OverflowError]. *)
Lemma full_hinge_loss_pair_counterexample :
  (0 < 2 ^ 1024)%Z
  /\ Float32.full_hinge_loss false [] [] (2 ^ 1024) = Raise OverflowError
  /\ Float32.full_hinge_loss true [] [] (2 ^ 1024) = Raise OverflowError
  /\ ~ (exists p : spec_float * spec_float,
          Float32.full_hinge_loss false [] [] (2 ^ 1024) = Ok p).
Proof.
  split; [reflexivity|].
  split; [vm_compute; reflexivity|].
  split; [vm_compute; reflexivity|].
  intros [p Hp]. vm_compute in Hp. discriminate Hp.
Qed.

(** C4, as the code has it: with [global_batch_size = 0] each hinge loss
    raises [ZeroDivisionError], the fault of [1.0 / global_batch_size];
    with [-(2 ** 1024 - 2 ** 970) < global_batch_size < 0] nothing is
    raised and each loss returns the negation of its value at
    [- global_batch_size]; with [global_batch_size <= -(2 ** 1024 - 2 **
    970)] each raises [OverflowError]. *)
Theorem hinge_loss_nonpositive_batch_size
    (ftz : bool) (r f : Float32.Tensor) (b : Z) :
  (b <= 0)%Z ->
  (b = 0%Z
   /\ Float32.discriminator_hinge_loss ftz r f b = Raise ZeroDivisionError
   /\ Float32.generator_hinge_loss ftz f b = Raise ZeroDivisionError
   /\ Float32.full_hinge_loss ftz r f b = Raise ZeroDivisionError)
  \/
  ((- float_max_int < b < 0)%Z
   /\ exists g d : spec_float,
        Float32.generator_hinge_loss ftz f (- b) = Ok g
        /\ Float32.discriminator_hinge_loss ftz r f (- b) = Ok d
        /\ Float32.generator_hinge_loss ftz f b = Ok (SFopp g)
        /\ Float32.discriminator_hinge_loss ftz r f b = Ok (SFopp d)
        /\ Float32.full_hinge_loss ftz r f b = Ok (SFopp g, SFopp d))
  \/
  ((b <= - float_max_int)%Z
   /\ Float32.discriminator_hinge_loss ftz r f b = Raise OverflowError
   /\ Float32.generator_hinge_loss ftz f b = Raise OverflowError
   /\ Float32.full_hinge_loss ftz r f b = Raise OverflowError).
Proof.
  intros Hb.
  rewrite !full_of_factor, !generator_of_factor, !discriminator_of_factor.
  destruct (Z.eq_dec b 0) as [->|Hne].
  - left. repeat split.
  - destruct (Z_lt_le_dec (- float_max_int) b) as [Hlt|Hge].
    + right; left. split; [lia|].
      rewrite (batch_factor_ok b) by lia.
      rewrite (batch_factor_ok (- b)) by lia.
      replace (Float32.reciprocal b)
        with (SFopp (Float32.reciprocal (- b))).
      * rewrite !f32_fmul_opp_r. do 2 eexists. repeat split.
      * rewrite <- f32_reciprocal_opp by lia. now rewrite Z.opp_involutive.
    + right; right. split; [exact Hge|].
      rewrite batch_factor_overflow by lia. repeat split.
Qed.

Lemma hinge_loss_nonpositive_batch_size_witness :
  (-2 <= 0)%Z
  /\ exists g d : spec_float,
       Float32.generator_hinge_loss true [Float32.of_int 0] (- -2) = Ok g
       /\ Float32.discriminator_hinge_loss true
            [Float32.of_int 0] [Float32.of_int 0] (- -2) = Ok d
       /\ Float32.generator_hinge_loss true [Float32.of_int 0] (-2)
          = Ok (SFopp g)
       /\ Float32.discriminator_hinge_loss true
            [Float32.of_int 0] [Float32.of_int 0] (-2) = Ok (SFopp d)
       /\ Float32.full_hinge_loss true
            [Float32.of_int 0] [Float32.of_int 0] (-2)
          = Ok (SFopp g, SFopp d).
Proof.
  split; [discriminate|].
  destruct (hinge_loss_nonpositive_batch_size true
              [Float32.of_int 0] [Float32.of_int 0] (-2) ltac:(discriminate))
    as [[H0 _]|[[_ H]|[Hge _]]].
  - discriminate H0.
  - exact H.
  - vm_compute in Hge. exfalso. apply Hge. reflexivity.
Defined.

(** C4 as stated fails: at [global_batch_size = -1] the discriminator loss
    of the scores [0], [0] returns [-2] and raises nothing; at
    [global_batch_size = 0] the exception is [ZeroDivisionError], which is
    not of the invalid-argument kind. *)
Lemma hinge_loss_nonpositive_batch_size_counterexample :
  (-1 <= 0)%Z
  /\ Float32.discriminator_hinge_loss false
       [Float32.of_int 0] [Float32.of_int 0] (-1)
     = Ok (Float32.of_int (-2))
  /\ Float32.discriminator_hinge_loss true
       [Float32.of_int 0] [Float32.of_int 0] (-1)
     = Ok (Float32.of_int (-2))
  /\ ~ (exists e : exception,
          Float32.discriminator_hinge_loss false
            [Float32.of_int 0] [Float32.of_int 0] (-1) = Raise e
          /\ invalid_argument_kind e = true)
  /\ ~ (exists e : exception,
          Float32.discriminator_hinge_loss false
            [Float32.of_int 0] [Float32.of_int 0] 0 = Raise e
          /\ invalid_argument_kind e = true).
Proof.
  split; [discriminate|].
  split; [vm_compute; reflexivity|].
  split; [vm_compute; reflexivity|].
  split.
  - intros [e [He _]]. vm_compute in He. discriminate He.
  - intros [e [He Hk]]. vm_compute in He. injection He as <-.
    discriminate Hk.
Qed.

(** C7, as the code has it: for [0 < global_batch_size < 2 ** 1024 - 2 **
    970] and scores without NaN, [discriminator_hinge_loss] returns a
    float32 that is never negative: it is [>= 0] (possibly [+inf]), or it
    is the NaN of an infinite operand times a zero operand in the final
    product; for [global_batch_size < 2 ** 124] it is [>= 0]. *)
Theorem discriminator_hinge_loss_nonneg
    (ftz : bool) (r f : Float32.Tensor) (b : Z) :
  (0 < b < float_max_int)%Z ->
  Forall (fun x => Float32.is_nan x = false) r ->
  Forall (fun x => Float32.is_nan x = false) f ->
  exists v : spec_float,
    Float32.discriminator_hinge_loss ftz r f b = Ok v
    /\ (Float32.nonneg v = true
        \/ (v = S754_nan
            /\ (Float32.flush ftz (Float32.hinge_sum ftz r f)
                = S754_infinity false
                /\ Float32.is_zero
                     (Float32.flush ftz (Float32.reciprocal b)) = true
                \/ Float32.is_zero
                     (Float32.flush ftz (Float32.hinge_sum ftz r f)) = true
                   /\ Float32.flush ftz (Float32.reciprocal b)
                      = S754_infinity false)))
    /\ ((b < 2 ^ 124)%Z -> Float32.nonneg v = true).
Proof.
  intros Hb Hr Hf.
  rewrite discriminator_of_factor, batch_factor_ok by lia.
  eexists. split; [reflexivity|].
  assert (Hcases := f32_fmul_nonneg ftz
            (Float32.hinge_sum ftz r f) (Float32.reciprocal b)
            (f32_hinge_sum_nonneg ftz r f Hr Hf)
            (f32_reciprocal_nonneg b ltac:(lia))).
  split; [exact Hcases|].
  intros Hlt.
  destruct (f32_reciprocal_double b ltac:(lia)) as [mc [ec [Hc [_ Hmc]]]].
  destruct Hcases as [Hn|[_ Hnan]]; [exact Hn|].
  exfalso. revert Hnan. rewrite Hc. unfold Float32.flush at 2 4.
  rewrite Hmc, andb_false_r. cbn [Float32.is_zero].
  intros [[_ H]|[_ H]]; discriminate H.
Qed.

Lemma discriminator_hinge_loss_nonneg_witness :
  (0 < 3 < float_max_int)%Z
  /\ exists v : spec_float,
       Float32.discriminator_hinge_loss true
         [Float32.of_int (-7); Float32.of_int 2] [Float32.of_int 5] 3 = Ok v
       /\ Float32.nonneg v = true.
Proof.
  split; [split; reflexivity|].
  destruct (discriminator_hinge_loss_nonneg true
              [Float32.of_int (-7); Float32.of_int 2] [Float32.of_int 5] 3
              (conj eq_refl eq_refl)
              ltac:(repeat constructor) ltac:(repeat constructor))
    as [v [Hv [_ Hn]]].
  exists v. split; [exact Hv | apply Hn; reflexivity].
Defined.

(** C7 as stated fails: with [global_batch_size = 2 ** 1024] the call
    raises [OverflowError]; with the two real scores [-15000000 * 2 ** 104]
    and [global_batch_size = 2 ** 151] the sum overflows to [+inf], the
    factor is [0], and the result is NaN, which is not [>= 0]. *)
Lemma discriminator_hinge_loss_nonneg_counterexample :
  Float32.discriminator_hinge_loss false [] [] (2 ^ 1024)
  = Raise OverflowError
  /\ Float32.discriminator_hinge_loss false
       [S754_finite true 15000000 104; S754_finite true 15000000 104] []
       (2 ^ 151)
     = Ok S754_nan
  /\ Float32.discriminator_hinge_loss true
       [S754_finite true 15000000 104; S754_finite true 15000000 104] []
       (2 ^ 151)
     = Ok S754_nan
  /\ Float32.nonneg S754_nan = false
  /\ valid_binary 24 128 (S754_finite true 15000000 104) = true.
Proof. repeat split; vm_compute; reflexivity. Qed.




(** ** The training driver *)

Section DriverFacts.
Context {Model Dataset Callbacks W : Type}.
Variable h : forall op : DriverOp Model Dataset Callbacks,
    W -> Result (driver_resp Model Dataset Callbacks op) * W.
Variables (model : Model) (data : Dataset) (model_dir : string).

(** [train_model] once both divisions have succeeded. *)
Lemma train_model_divisions_ok num_steps log_every initial_step e i :
  int_floordiv num_steps log_every = Ok e ->
  floordiv (py_or initial_step (PyInt 0)) log_every = Ok i ->
  train_model Callbacks model data model_dir num_steps log_every initial_step
  = fit_with Callbacks model data model_dir e log_every i.
Proof.
  intros He Hi. unfold train_model, fit_with. rewrite He, Hi. reflexivity.
Qed.

(** With [log_every = 0] the first division raises. *)
Lemma train_model_division_fault num_steps initial_step :
  train_model Callbacks model data model_dir num_steps 0 initial_step
  = fail_before_fit Callbacks model data model_dir ZeroDivisionError.
Proof. reflexivity. Qed.

Lemma int_floordiv_nonzero z d :
  d <> 0%Z -> int_floordiv z d = Ok (z / d)%Z.
Proof.
  intros Hd. unfold int_floordiv.
  destruct (Z.eqb_spec d 0); [contradiction | reflexivity].
Qed.

Lemma py_or_int z : py_or (PyInt z) (PyInt 0) = PyInt z.
Proof.
  unfold py_or, truthy. destruct (Z.eqb_spec z 0) as [->|]; reflexivity.
Qed.

Lemma py_or_falsy v d : truthy v = false -> py_or v d = d.
Proof. intros Hv. unfold py_or. now rewrite Hv. Qed.

(** A run in which the model and the dataset answer every request. *)
Lemma run_fit_with (cbs : Callbacks) (dim : option Z) w w1 w2 w3 w4 e s i :
  h (CreateCallbacks model model_dir) w = (Ok cbs, w1) ->
  h (ElementSpecBatchDim data) w1 = (Ok dim, w2) ->
  h (SetGlobalBatchSize model dim) w2 = (Ok tt, w3) ->
  h (Fit model data cbs e s i) w3 = (Ok tt, w4) ->
  run h (fit_with Callbacks model data model_dir e s i) w = (Ok model, w4)
  /\ trace h (fit_with Callbacks model data model_dir e s i) w
     = [CreateCallbacks model model_dir;
        ElementSpecBatchDim data;
        SetGlobalBatchSize model dim;
        Fit model data cbs e s i].
Proof.
  intros H1 H2 H3 H4. unfold fit_with. cbn.
  rewrite H1; cbn. rewrite H2; cbn. rewrite H3; cbn. rewrite H4; cbn.
  split; reflexivity.
Qed.

(** A run that ends in an exception raised by the driver itself. *)
Lemma run_fail_before_fit (cbs : Callbacks) (dim : option Z) w w1 w2 w3 e :
  h (CreateCallbacks model model_dir) w = (Ok cbs, w1) ->
  h (ElementSpecBatchDim data) w1 = (Ok dim, w2) ->
  h (SetGlobalBatchSize model dim) w2 = (Ok tt, w3) ->
  run h (fail_before_fit Callbacks model data model_dir e) w = (Raise e, w3)
  /\ trace h (fail_before_fit Callbacks model data model_dir e) w
     = [CreateCallbacks model model_dir;
        ElementSpecBatchDim data;
        SetGlobalBatchSize model dim].
Proof.
  intros H1 H2 H3. unfold fail_before_fit. cbn.
  rewrite H1; cbn. rewrite H2; cbn. rewrite H3; cbn.
  split; reflexivity.
Qed.
End DriverFacts.

Section DriverClaims.
Context {Model Dataset Callbacks W : Type}.
Variable h : forall op : DriverOp Model Dataset Callbacks,
    W -> Result (driver_resp Model Dataset Callbacks op) * W.
Variables (model : Model) (data : Dataset) (model_dir : string).
Variables (cbs : Callbacks) (dim : option Z) (w w1 w2 w3 w4 : W).

(** C5: for a positive [log_every] and non-negative [num_steps] and
    [initial_step], [train_model] calls [fit] with
    [epochs = num_steps // log_every], [steps_per_epoch = log_every] and
    [initial_epoch = initial_step // log_every], and returns the model; the
    quotients are floors, so the [num_steps mod log_every] steps beyond the
    last whole epoch are dropped without an error.  With [num_steps = 100]
    and [log_every = 10], [initial_step = 0] gives [epochs = 10] and
    [initial_epoch = 0], and [initial_step = 50] gives [initial_epoch = 5]. *)
Theorem train_model_schedule (num_steps log_every initial_step : Z) :
  (0 < log_every)%Z -> (0 <= num_steps)%Z -> (0 <= initial_step)%Z ->
  h (CreateCallbacks model model_dir) w = (Ok cbs, w1) ->
  h (ElementSpecBatchDim data) w1 = (Ok dim, w2) ->
  h (SetGlobalBatchSize model dim) w2 = (Ok tt, w3) ->
  h (Fit model data cbs (num_steps / log_every) log_every
         (initial_step / log_every)) w3 = (Ok tt, w4) ->
  (run h (train_model Callbacks model data model_dir
            num_steps log_every (PyInt initial_step)) w = (Ok model, w4)
   /\ trace h (train_model Callbacks model data model_dir
                 num_steps log_every (PyInt initial_step)) w
      = [CreateCallbacks model model_dir;
         ElementSpecBatchDim data;
         SetGlobalBatchSize model dim;
         Fit model data cbs (num_steps / log_every) log_every
             (initial_step / log_every)])
  /\ ((num_steps / log_every) * log_every
      = num_steps - num_steps mod log_every
      /\ num_steps - log_every < (num_steps / log_every) * log_every
         <= num_steps)%Z
  /\ (fit_schedule
        (trace toy_keras
           (train_model string "biggan"%string 64%Z "ckpt"%string 100 10 (PyInt 0)) None)
      = [(10, 10, 0)%Z]
      /\ fit_schedule
           (trace toy_keras
              (train_model string "biggan"%string 64%Z "ckpt"%string 100 10 (PyInt 50)) None)
         = [(10, 10, 5)%Z]).
Proof.
  intros Hl Hn Hi H1 H2 H3 H4. split; [|split].
  - rewrite (train_model_divisions_ok model data model_dir
               num_steps log_every (PyInt initial_step)
               (num_steps / log_every) (initial_step / log_every)).
    + exact (run_fit_with h model data model_dir cbs dim
               w w1 w2 w3 w4 _ _ _ H1 H2 H3 H4).
    + apply int_floordiv_nonzero. lia.
    + rewrite py_or_int. apply int_floordiv_nonzero. lia.
  - pose proof (Z.div_mod num_steps log_every ltac:(lia)) as Hdm.
    pose proof (Z.mod_pos_bound num_steps log_every Hl) as Hmod.
    split; [|split]; nia.
  - split; reflexivity.
Qed.

(** C6, as the code has it: with [log_every = 0] the floor division
    [num_steps // log_every] raises [ZeroDivisionError]; by then the
    callbacks have been created and [model.global_batch_size] has been set,
    and [fit] is not called. *)
Theorem train_model_zero_log_every (num_steps : Z) (initial_step : PyVal) :
  h (CreateCallbacks model model_dir) w = (Ok cbs, w1) ->
  h (ElementSpecBatchDim data) w1 = (Ok dim, w2) ->
  h (SetGlobalBatchSize model dim) w2 = (Ok tt, w3) ->
  run h (train_model Callbacks model data model_dir
           num_steps 0 initial_step) w = (Raise ZeroDivisionError, w3)
  /\ trace h (train_model Callbacks model data model_dir
                num_steps 0 initial_step) w
     = [CreateCallbacks model model_dir;
        ElementSpecBatchDim data;
        SetGlobalBatchSize model dim]
  /\ fit_schedule (trace h (train_model Callbacks model data model_dir
                              num_steps 0 initial_step) w) = [].
Proof.
  intros H1 H2 H3. rewrite train_model_division_fault.
  destruct (run_fail_before_fit h model data model_dir cbs dim
              w w1 w2 w3 ZeroDivisionError H1 H2 H3) as [Hr Ht].
  rewrite Hr, Ht. repeat split.
Qed.

(** C10: a falsy [initial_step] ([None], [0], [False], the empty string) is
    replaced by [0]: the call is the call with [initial_step = 0], and for a
    non-zero [log_every] it returns the model after calling [fit] with
    [initial_epoch = 0]. *)
Theorem train_model_falsy_initial_step
    (initial_step : PyVal) (num_steps log_every : Z) :
  truthy initial_step = false ->
  log_every <> 0%Z ->
  h (CreateCallbacks model model_dir) w = (Ok cbs, w1) ->
  h (ElementSpecBatchDim data) w1 = (Ok dim, w2) ->
  h (SetGlobalBatchSize model dim) w2 = (Ok tt, w3) ->
  h (Fit model data cbs (num_steps / log_every) log_every 0) w3
  = (Ok tt, w4) ->
  truthy PyNone = false
  /\ py_or initial_step (PyInt 0) = PyInt 0
  /\ train_model Callbacks model data model_dir
       num_steps log_every initial_step
     = train_model Callbacks model data model_dir
         num_steps log_every (PyInt 0)
  /\ run h (train_model Callbacks model data model_dir
              num_steps log_every initial_step) w = (Ok model, w4)
  /\ trace h (train_model Callbacks model data model_dir
                num_steps log_every initial_step) w
     = [CreateCallbacks model model_dir;
        ElementSpecBatchDim data;
        SetGlobalBatchSize model dim;
        Fit model data cbs (num_steps / log_every) log_every 0].
Proof.
  intros Hv Hl H1 H2 H3 H4.
  assert (Hor : py_or initial_step (PyInt 0) = PyInt 0)
    by (apply py_or_falsy; exact Hv).
  assert (Hp : train_model Callbacks model data model_dir
                 num_steps log_every initial_step
               = fit_with Callbacks model data model_dir
                   (num_steps / log_every) log_every 0).
  { apply train_model_divisions_ok.
    - apply int_floordiv_nonzero; exact Hl.
    - rewrite Hor. cbn [floordiv].
      rewrite int_floordiv_nonzero by exact Hl. now rewrite Z.div_0_l. }
  split; [reflexivity|]. split; [exact Hor|]. split.
  - unfold train_model. rewrite Hor. reflexivity.
  - rewrite Hp.
    exact (run_fit_with h model data model_dir cbs dim
             w w1 w2 w3 w4 _ _ _ H1 H2 H3 H4).
Qed.
End DriverClaims.

Lemma train_model_schedule_witness :
  run toy_keras (train_model string "biggan"%string 64%Z "ckpt"%string 105 10 (PyInt 37)) None
  = (Ok "biggan"%string, Some 64%Z)
  /\ fit_schedule
       (trace toy_keras
          (train_model string "biggan"%string 64%Z "ckpt"%string 105 10 (PyInt 37)) None)
     = [(10, 10, 3)%Z].
Proof.
  pose proof (train_model_schedule toy_keras "biggan"%string 64%Z "ckpt"%string
                "ckpt"%string (Some 64%Z) None None None (Some 64%Z) (Some 64%Z)
                105 10 37
                ltac:(lia) ltac:(lia) ltac:(lia)
                eq_refl eq_refl eq_refl eq_refl) as [[Hrun Htr] _].
  split; [exact Hrun|]. rewrite Htr. reflexivity.
Defined.

Lemma train_model_zero_log_every_witness :
  run toy_keras (train_model string "biggan"%string 64%Z "ckpt"%string 100 0 PyNone) None
  = (Raise ZeroDivisionError, Some 64%Z).
Proof.
  apply (train_model_zero_log_every toy_keras "biggan"%string 64%Z "ckpt"%string
           "ckpt"%string (Some 64%Z) None None None (Some 64%Z) 100 PyNone);
    reflexivity.
Defined.

(** C6 as stated fails: with [log_every = 0] the exception that reaches the
    caller is [ZeroDivisionError], which is not of the invalid-argument
    kind. *)
Lemma train_model_zero_log_every_counterexample :
  run toy_keras (train_model string "biggan"%string 64%Z "ckpt"%string 100 0 (PyInt 0)) None
  = (Raise ZeroDivisionError, Some 64%Z)
  /\ ~ (exists (e : exception) (w' : option Z),
          run toy_keras
            (train_model string "biggan"%string 64%Z "ckpt"%string 100 0 (PyInt 0)) None
          = (Raise e, w')
          /\ invalid_argument_kind e = true).
Proof.
  split; [reflexivity|].
  intros [e [w' [He Hk]]]. cbv in He. injection He as <- _. discriminate Hk.
Qed.

Lemma train_model_falsy_initial_step_witness :
  truthy PyNone = false /\ 10%Z <> 0%Z
  /\ run toy_keras (train_model string "biggan"%string 64%Z "ckpt"%string 100 10 PyNone) None
     = (Ok "biggan"%string, Some 64%Z)
  /\ fit_schedule
       (trace toy_keras
          (train_model string "biggan"%string 64%Z "ckpt"%string 100 10 PyNone) None)
     = [(10, 10, 0)%Z].
Proof.
  split; [reflexivity|]. split; [lia|].
  pose proof (train_model_falsy_initial_step toy_keras "biggan"%string 64%Z "ckpt"%string
                "ckpt"%string (Some 64%Z) None None None (Some 64%Z) (Some 64%Z)
                PyNone 100 10
                eq_refl ltac:(lia) eq_refl eq_refl eq_refl eq_refl)
    as [_ [_ [_ [Hrun Htr]]]].
  split; [exact Hrun|]. rewrite Htr. reflexivity.
Defined.

(** ** The minimisation step *)

Lemma combine_fst_snd {A B : Type} (xs : list A) (ys : list B) :
  List.length xs = List.length ys ->
  map fst (combine xs ys) = xs /\ map snd (combine xs ys) = ys.
Proof.
  revert ys. induction xs as [|x xs IH]; intros [|y ys] Hlen;
    try discriminate Hlen; [split; reflexivity|].
  injection Hlen as Hlen. destruct (IH ys Hlen) as [Hf Hs].
  cbn. rewrite Hf, Hs. split; reflexivity.
Qed.

Lemma combine_nth_error {A B : Type} (xs : list A) (ys : list B) i x y :
  nth_error xs i = Some x -> nth_error ys i = Some y ->
  nth_error (combine xs ys) i = Some (x, y).
Proof.
  revert ys i. induction xs as [|x0 xs IH]; intros [|y0 ys] [|i] Hx Hy;
    try discriminate Hx; try discriminate Hy; cbn in *.
  - now injection Hx as ->; injection Hy as ->.
  - now apply IH.
Qed.

Section MinimizeClaims.
Context {Optimizer Var Tape Callable W : Type}.
Variable h : forall op : MinOp Optimizer Var Tape Callable,
    W -> Result (min_resp Optimizer Var Tape Callable op) * W.
Variables (optimizer : Optimizer) (loss_fn : Callable) (var_list : list Var).

(** Whatever the tape, the callable and the optimizer answer, [loss_fn] is
    not evaluated a second time. *)
Lemma imperative_minimize_invokes_at_most_once (w : W) :
  invocations (trace h (imperative_minimize optimizer loss_fn var_list) w) <= 1.
Proof.
  unfold imperative_minimize. cbn.
  repeat match goal with
         | |- context [h ?op ?w0] => destruct (h op w0) as [[?|?] ?]; cbn
         end; lia.
Qed.

(** C9: in a run where the tape, [loss_fn] and the optimizer answer,
    [imperative_minimize] evaluates [loss_fn] once, under the tape, asks the
    tape for the gradients of the value [loss] it got with respect to
    [var_list], hands the optimizer the gradients zipped with [var_list]
    (the i-th gradient with the i-th variable, all of [var_list] in its
    order, the tape giving one gradient per variable), and returns [loss]
    itself.  In no run, whatever the answers, is [loss_fn] evaluated twice. *)
Theorem imperative_minimize_step
    (tape : Tape) (loss : Tensor) (grad : list Grad) (w w1 w2 w3 w4 w5 : W) :
  h GradientTape w = (Ok tape, w1) ->
  h (Invoke loss_fn) w1 = (Ok loss, w2) ->
  h (TapeExit tape) w2 = (Ok tt, w3) ->
  h (TapeGradient tape loss var_list) w3 = (Ok grad, w4) ->
  List.length grad = List.length var_list ->
  h (ApplyGradients optimizer (combine grad var_list)) w4 = (Ok tt, w5) ->
  run h (imperative_minimize optimizer loss_fn var_list) w = (Ok loss, w5)
  /\ trace h (imperative_minimize optimizer loss_fn var_list) w
     = [GradientTape;
        Invoke loss_fn;
        TapeExit tape;
        TapeGradient tape loss var_list;
        ApplyGradients optimizer (combine grad var_list)]
  /\ invocations (trace h (imperative_minimize optimizer loss_fn var_list) w)
     = 1
  /\ map fst (combine grad var_list) = grad
  /\ map snd (combine grad var_list) = var_list
  /\ (forall i g x,
        nth_error grad i = Some g -> nth_error var_list i = Some x ->
        nth_error (combine grad var_list) i = Some (g, x))
  /\ (forall w0 : W,
        invocations
          (trace h (imperative_minimize optimizer loss_fn var_list) w0) <= 1).
Proof.
  intros H1 H2 H3 H4 Hlen H5.
  assert (Htr : trace h (imperative_minimize optimizer loss_fn var_list) w
                = [GradientTape; Invoke loss_fn; TapeExit tape;
                   TapeGradient tape loss var_list;
                   ApplyGradients optimizer (combine grad var_list)]).
  { unfold imperative_minimize. cbn.
    rewrite H1; cbn. rewrite H2; cbn. rewrite H3; cbn.
    rewrite H4; cbn. rewrite H5; cbn. reflexivity. }
  split; [|split; [exact Htr|split; [rewrite Htr; reflexivity|]]].
  - unfold imperative_minimize. cbn.
    rewrite H1; cbn. rewrite H2; cbn. rewrite H3; cbn.
    rewrite H4; cbn. rewrite H5; cbn. reflexivity.
  - destruct (combine_fst_snd grad var_list Hlen) as [Hf Hs].
    split; [exact Hf|]. split; [exact Hs|]. split.
    + intros i g x. apply combine_nth_error.
    + exact imperative_minimize_invokes_at_most_once.
Qed.
End MinimizeClaims.

Lemma imperative_minimize_step_witness :
  run toy_tf (imperative_minimize 1%R tt [tt]) 3%R
  = (Ok [3 * 3]%R, fold_left (descend 1) (combine [Some [2 * 3]%R] [tt]) 3%R)
  /\ invocations (trace toy_tf (imperative_minimize 1%R tt [tt]) 3%R) = 1.
Proof.
  pose proof (imperative_minimize_step toy_tf 1%R tt [tt]
                tt [3 * 3]%R [Some [2 * 3]%R] 3%R 3%R 3%R 3%R 3%R
                (fold_left (descend 1) (combine [Some [2 * 3]%R] [tt]) 3%R)
                eq_refl eq_refl eq_refl eq_refl eq_refl eq_refl)
    as [Hrun [_ [Hinv _]]].
  split; [exact Hrun | exact Hinv].
Defined.

(** * Further properties of the losses *)

(** ** The losses over the reals *)






Lemma Rmax_0_0 : Rmax 0 0 = 0%R.
Proof. apply Rmax_left; lra. Qed.











Lemma relu1_clip_real x : relu1 (1 - Rmin 1 x) = relu1 (1 - x).
Proof.
  unfold relu1, Rmin. destruct (Rle_dec 1 x) as [H|H].
  - replace (1 - 1)%R with 0%R by lra.
    rewrite Rmax_0_0. symmetry. apply Rmax_right. lra.
  - reflexivity.
Qed.

Lemma relu1_clip_fake x : relu1 (1 + Rmax (-1) x) = relu1 (1 + x).
Proof.
  unfold relu1. unfold Rmax at 2. destruct (Rle_dec (-1) x) as [H|H].
  - reflexivity.
  - replace (1 + -1)%R with 0%R by lra.
    rewrite Rmax_0_0. symmetry. apply Rmax_right. lra.
Qed.



(** X5: a hinge loss raises only for a divisor that is [0] or has no
    float: each of the three functions raises [e] exactly when
    [global_batch_size] is [0] and [e] is [ZeroDivisionError], or
    [|global_batch_size| >= 2 ** 1024 - 2 ** 970] and [e] is
    [OverflowError]; whatever the float32 scores, nothing else is
    raised. *)
Theorem hinge_loss_raises_iff
    (ftz : bool) (r f : Float32.Tensor) (b : Z) (e : exception) :
  (Float32.discriminator_hinge_loss ftz r f b = Raise e
   <-> b = 0%Z /\ e = ZeroDivisionError
       \/ (float_max_int <= Z.abs b)%Z /\ e = OverflowError)
  /\ (Float32.generator_hinge_loss ftz f b = Raise e
      <-> b = 0%Z /\ e = ZeroDivisionError
          \/ (float_max_int <= Z.abs b)%Z /\ e = OverflowError)
  /\ (Float32.full_hinge_loss ftz r f b = Raise e
      <-> b = 0%Z /\ e = ZeroDivisionError
          \/ (float_max_int <= Z.abs b)%Z /\ e = OverflowError).
Proof.
  assert (Hmax : (0 < float_max_int)%Z) by reflexivity.
  rewrite full_of_factor, generator_of_factor, discriminator_of_factor.
  destruct (batch_factor_cases b) as [[-> H]|[[Hne [Hlt H]]|[Hge H]]];
    rewrite H; repeat split;
    try (intros [[? ?]|[? ?]]); try (intros He; injection He as <-);
    subst; try discriminate; try reflexivity; try lia; auto.
Qed.

(** X7: the discriminator loss saturates at the margin: capping every real
    score at [1] from above and every fake score at [-1] from below changes
    nothing, for every [global_batch_size]. *)
Theorem discriminator_hinge_loss_clip (r f : Tensor) (b : Z) :
  discriminator_hinge_loss (map (Rmin 1) r) (map (Rmax (-1)) f) b
  = discriminator_hinge_loss r f b.
Proof.
  unfold discriminator_hinge_loss, relu, rsub, radd.
  rewrite !map_map.
  rewrite (map_ext (fun x => relu1 (1 - Rmin 1 x))
                   (fun x => relu1 (1 - x)) relu1_clip_real).
  rewrite (map_ext (fun x => relu1 (1 + Rmax (-1) x))
                   (fun x => relu1 (1 + x)) relu1_clip_fake).
  reflexivity.
Qed.



(** * Further properties of the training driver *)

Section DriverRuns.
Context {Model Dataset Callbacks W : Type}.
Variable h : forall op : DriverOp Model Dataset Callbacks,
    W -> Result (driver_resp Model Dataset Callbacks op) * W.
Variables (model : Model) (data : Dataset) (model_dir : string).

(** Answer the next request in hypothesis [H], keeping the answer. *)
Ltac next_answer H :=
  match type of H with
  | context [h ?op ?w0] =>
      let E := fresh "E" in
      destruct (h op w0) as [[?|?] ?] eqn:E; cbn in H |- *
  end.

(** The two divisions decide which of the two shapes a call has. *)
Lemma train_model_cases num_steps log_every initial_step :
  train_model Callbacks model data model_dir num_steps log_every initial_step
  = match int_floordiv num_steps log_every with
    | Raise e => fail_before_fit Callbacks model data model_dir e
    | Ok epochs =>
        match floordiv (py_or initial_step (PyInt 0)) log_every with
        | Raise e => fail_before_fit Callbacks model data model_dir e
        | Ok initial_epoch =>
            fit_with Callbacks model data model_dir
              epochs log_every initial_epoch
        end
    end.
Proof.
  unfold train_model, fit_with, fail_before_fit.
  destruct (int_floordiv num_steps log_every); [|reflexivity].
  destruct (floordiv (py_or initial_step (PyInt 0)) log_every); reflexivity.
Qed.

Lemma int_floordiv_ok z d q :
  int_floordiv z d = Ok q -> d <> 0%Z /\ q = (z / d)%Z.
Proof.
  unfold int_floordiv. destruct (Z.eqb_spec d 0); cbn; intros H.
  - discriminate H.
  - injection H as <-. split; [assumption | reflexivity].
Qed.

Lemma trace_fail_before_fit_no_fit w e m d c ep s i :
  ~ In (Fit m d c ep s i)
       (trace h (fail_before_fit Callbacks model data model_dir e) w).
Proof.
  intros H. unfold fail_before_fit in H. cbn in H.
  next_answer H; [|destruct H as [H|[]]; discriminate H].
  next_answer H; [|destruct H as [H|[H|[]]]; discriminate H].
  next_answer H; destruct H as [H|[H|[H|[]]]]; discriminate H.
Qed.

Lemma trace_fit_with_inv w e0 s0 i0 m d c ep s i :
  In (Fit m d c ep s i)
     (trace h (fit_with Callbacks model data model_dir e0 s0 i0) w) ->
  exists (dim : option Z) (w1 w2 w3 : W),
    h (CreateCallbacks model model_dir) w = (Ok c, w1)
    /\ h (ElementSpecBatchDim data) w1 = (Ok dim, w2)
    /\ h (SetGlobalBatchSize model dim) w2 = (Ok tt, w3)
    /\ trace h (fit_with Callbacks model data model_dir e0 s0 i0) w
       = [CreateCallbacks model model_dir;
          ElementSpecBatchDim data;
          SetGlobalBatchSize model dim;
          Fit model data c e0 s0 i0]
    /\ (m, d, ep, s, i) = (model, data, e0, s0, i0).
Proof.
  unfold fit_with. cbn. intros H.
  next_answer H; [|destruct H as [H|[]]; discriminate H].
  next_answer H; [|destruct H as [H|[H|[]]]; discriminate H].
  next_answer H; [|destruct H as [H|[H|[H|[]]]]; discriminate H].
  match goal with u : driver_resp _ _ _ (SetGlobalBatchSize _ _) |- _ =>
    destruct u end.
  next_answer H;
    (destruct H as [H|[H|[H|[H|[]]]]]; try discriminate H;
     injection H as <- <- <- <- <- <-;
     do 4 eexists; repeat split; first [eassumption | reflexivity]).
Qed.

Lemma run_fit_with_ok_inv w w' e0 s0 i0 m :
  run h (fit_with Callbacks model data model_dir e0 s0 i0) w = (Ok m, w') ->
  m = model
  /\ exists c : Callbacks,
       In (Fit model data c e0 s0 i0)
          (trace h (fit_with Callbacks model data model_dir e0 s0 i0) w).
Proof.
  unfold fit_with. cbn. intros H.
  next_answer H; [|discriminate H].
  next_answer H; [|discriminate H].
  next_answer H; [|discriminate H].
  next_answer H; [|discriminate H].
  injection H as <- <-. split; [reflexivity|].
  eexists. do 3 right. left. reflexivity.
Qed.

Lemma run_fail_before_fit_not_ok w w' e m :
  run h (fail_before_fit Callbacks model data model_dir e) w <> (Ok m, w').
Proof.
  unfold fail_before_fit. cbn. intros H.
  next_answer H; [|discriminate H].
  next_answer H; [|discriminate H].
  next_answer H; discriminate H.
Qed.
End DriverRuns.

Section DriverExtras.
Context {Model Dataset Callbacks W : Type}.
Variable h : forall op : DriverOp Model Dataset Callbacks,
    W -> Result (driver_resp Model Dataset Callbacks op) * W.
Variables (model : Model) (data : Dataset) (model_dir : string).
Variables (num_steps log_every : Z).

(** Where a [Fit] request in a run of [train_model] comes from. *)
Lemma trace_train_model_fit_inv
    (initial_step : PyVal) (w : W)
    (m : Model) (d : Dataset) (c : Callbacks) (ep s i : Z) :
  In (Fit m d c ep s i)
     (trace h (train_model Callbacks model data model_dir
                 num_steps log_every initial_step) w) ->
  (m, d) = (model, data)
  /\ log_every <> 0%Z
  /\ ep = (num_steps / log_every)%Z
  /\ s = log_every
  /\ floordiv (py_or initial_step (PyInt 0)) log_every = Ok i
  /\ exists (dim : option Z) (w1 w2 w3 : W),
       h (CreateCallbacks model model_dir) w = (Ok c, w1)
       /\ h (ElementSpecBatchDim data) w1 = (Ok dim, w2)
       /\ h (SetGlobalBatchSize model dim) w2 = (Ok tt, w3)
       /\ trace h (train_model Callbacks model data model_dir
                     num_steps log_every initial_step) w
          = [CreateCallbacks model model_dir;
             ElementSpecBatchDim data;
             SetGlobalBatchSize model dim;
             Fit model data c ep s i].
Proof.
  rewrite train_model_cases.
  destruct (int_floordiv num_steps log_every) as [e0|x] eqn:Hdiv;
    [|intros H; now apply trace_fail_before_fit_no_fit in H].
  destruct (floordiv (py_or initial_step (PyInt 0)) log_every)
    as [i0|x] eqn:Hfl;
    [|intros H; now apply trace_fail_before_fit_no_fit in H].
  intros H. apply int_floordiv_ok in Hdiv. destruct Hdiv as [Hl ->].
  apply trace_fit_with_inv in H.
  destruct H as (dim & w1 & w2 & w3 & H1 & H2 & H3 & Htr & Heq).
  injection Heq as -> -> -> -> ->.
  repeat split; try assumption; try reflexivity.
  exists dim, w1, w2, w3. repeat split; assumption.
Qed.

(** X9: whatever the model and the dataset answer, [fit] is requested only
    as the fourth and last request of a call, on the given model and
    dataset, with the callbacks that [create_callbacks] returned, after the
    batch dimension read from the dataset was stored on the model, and only
    with a non-zero [log_every] as [steps_per_epoch],
    [num_steps // log_every] as [epochs] and
    [(initial_step or 0) // log_every] as [initial_epoch]. *)
Theorem train_model_fit_request
    (initial_step : PyVal) (w : W)
    (m : Model) (d : Dataset) (c : Callbacks) (ep s i : Z) :
  In (Fit m d c ep s i)
     (trace h (train_model Callbacks model data model_dir
                 num_steps log_every initial_step) w) ->
  (m, d) = (model, data)
  /\ log_every <> 0%Z
  /\ ep = (num_steps / log_every)%Z
  /\ s = log_every
  /\ floordiv (py_or initial_step (PyInt 0)) log_every = Ok i
  /\ exists (dim : option Z) (w1 w2 w3 : W),
       h (CreateCallbacks model model_dir) w = (Ok c, w1)
       /\ h (ElementSpecBatchDim data) w1 = (Ok dim, w2)
       /\ h (SetGlobalBatchSize model dim) w2 = (Ok tt, w3)
       /\ trace h (train_model Callbacks model data model_dir
                     num_steps log_every initial_step) w
          = [CreateCallbacks model model_dir;
             ElementSpecBatchDim data;
             SetGlobalBatchSize model dim;
             Fit model data c ep s i].
Proof. apply trace_train_model_fit_inv. Qed.

(** X10: a call that returns, returns the model it was given, and [fit] was
    requested in that call, so [log_every] was not [0]. *)
Theorem train_model_returns_given_model
    (initial_step : PyVal) (w w' : W) (m : Model) :
  run h (train_model Callbacks model data model_dir
           num_steps log_every initial_step) w = (Ok m, w') ->
  m = model
  /\ log_every <> 0%Z
  /\ exists (c : Callbacks) (i : Z),
       In (Fit model data c (num_steps / log_every) log_every i)
          (trace h (train_model Callbacks model data model_dir
                      num_steps log_every initial_step) w).
Proof.
  rewrite train_model_cases.
  destruct (int_floordiv num_steps log_every) as [e0|x] eqn:Hdiv;
    [|intros H; now apply run_fail_before_fit_not_ok in H].
  destruct (floordiv (py_or initial_step (PyInt 0)) log_every)
    as [i0|x] eqn:Hfl;
    [|intros H; now apply run_fail_before_fit_not_ok in H].
  intros H. apply int_floordiv_ok in Hdiv. destruct Hdiv as [Hl ->].
  apply run_fit_with_ok_inv in H. destruct H as [-> [c Hc]].
  split; [reflexivity|]. split; [exact Hl|]. exists c, i0. exact Hc.
Qed.

Variables (cbs : Callbacks) (dim : option Z) (w w1 w2 w3 w4 : W).

(** X11: an [initial_step] that is a non-empty string makes the call raise
    [TypeError] at [(initial_step or 0) // log_every], for a non-zero
    [log_every]: the callbacks have been created and the batch size stored,
    and [fit] is not requested. *)
Theorem train_model_string_initial_step (name : string) :
  name <> ""%string ->
  log_every <> 0%Z ->
  h (CreateCallbacks model model_dir) w = (Ok cbs, w1) ->
  h (ElementSpecBatchDim data) w1 = (Ok dim, w2) ->
  h (SetGlobalBatchSize model dim) w2 = (Ok tt, w3) ->
  run h (train_model Callbacks model data model_dir
           num_steps log_every (PyStr name)) w = (Raise TypeError, w3)
  /\ trace h (train_model Callbacks model data model_dir
                num_steps log_every (PyStr name)) w
     = [CreateCallbacks model model_dir;
        ElementSpecBatchDim data;
        SetGlobalBatchSize model dim].
Proof.
  intros Hname Hl H1 H2 H3. rewrite train_model_cases.
  rewrite int_floordiv_nonzero by exact Hl.
  assert (Hor : py_or (PyStr name) (PyInt 0) = PyStr name).
  { unfold py_or, truthy. destruct (String.eqb_spec name ""); [contradiction|].
    reflexivity. }
  rewrite Hor. cbn [floordiv].
  exact (run_fail_before_fit h model data model_dir cbs dim
           w w1 w2 w3 TypeError H1 H2 H3).
Qed.

(** X12: an exception raised by [fit] is the outcome of the call: it is not
    caught, and the model is not returned. *)
Theorem train_model_fit_raises
    (initial_step : Z) (e : exception) :
  log_every <> 0%Z ->
  h (CreateCallbacks model model_dir) w = (Ok cbs, w1) ->
  h (ElementSpecBatchDim data) w1 = (Ok dim, w2) ->
  h (SetGlobalBatchSize model dim) w2 = (Ok tt, w3) ->
  h (Fit model data cbs (num_steps / log_every) log_every
         (initial_step / log_every)) w3 = (Raise e, w4) ->
  run h (train_model Callbacks model data model_dir
           num_steps log_every (PyInt initial_step)) w = (Raise e, w4).
Proof.
  intros Hl H1 H2 H3 H4. rewrite train_model_cases.
  rewrite int_floordiv_nonzero by exact Hl.
  rewrite py_or_int. cbn [floordiv].
  rewrite int_floordiv_nonzero by exact Hl.
  unfold fit_with. cbn.
  rewrite H1; cbn. rewrite H2; cbn. rewrite H3; cbn. rewrite H4; cbn.
  reflexivity.
Qed.

(** X13: with an int [initial_step] and a positive [log_every], the
    schedule resumes at the epoch boundary at or before [initial_step]:
    [initial_epoch * steps_per_epoch <= initial_step
     < (initial_epoch + 1) * steps_per_epoch], with equality on the left
    when [log_every] divides [initial_step]; and [initial_epoch] does not
    exceed [epochs] when [initial_step] does not exceed [num_steps]. *)
Theorem train_model_resume_boundary
    (initial_step : Z) (w0 : W)
    (m : Model) (d : Dataset) (c : Callbacks) (ep s i : Z) :
  (0 < log_every)%Z ->
  In (Fit m d c ep s i)
     (trace h (train_model Callbacks model data model_dir
                 num_steps log_every (PyInt initial_step)) w0) ->
  (i * s <= initial_step < (i + 1) * s)%Z
  /\ ((initial_step mod log_every = 0)%Z -> (i * s)%Z = initial_step)
  /\ ((initial_step <= num_steps)%Z -> (i <= ep)%Z).
Proof.
  intros Hl H. apply trace_train_model_fit_inv in H.
  destruct H as (_ & _ & -> & -> & Hi & _).
  rewrite py_or_int in Hi. cbn [floordiv] in Hi.
  apply int_floordiv_ok in Hi. destruct Hi as [_ ->].
  pose proof (Z.div_mod initial_step log_every ltac:(lia)) as Hdm.
  pose proof (Z.mod_pos_bound initial_step log_every Hl) as Hmod.
  split; [nia|]. split.
  - intros H0. nia.
  - intros Hle. apply Z.div_le_mono; assumption.
Qed.

(** X14: the sign of [log_every] is not checked: with a negative
    [log_every] and a positive [num_steps], [fit] is requested with a
    negative [epochs] and a negative [steps_per_epoch]. *)
Theorem train_model_negative_log_every
    (initial_step : PyVal) (w0 : W)
    (m : Model) (d : Dataset) (c : Callbacks) (ep s i : Z) :
  (log_every < 0)%Z -> (0 < num_steps)%Z ->
  In (Fit m d c ep s i)
     (trace h (train_model Callbacks model data model_dir
                 num_steps log_every initial_step) w0) ->
  (ep < 0)%Z /\ (s < 0)%Z.
Proof.
  intros Hl Hn H. apply trace_train_model_fit_inv in H.
  destruct H as (_ & _ & -> & -> & _).
  split; [|exact Hl].
  pose proof (Z.div_mod num_steps log_every ltac:(lia)) as Hdm.
  pose proof (Z.mod_neg_bound num_steps log_every Hl) as Hmod.
  nia.
Qed.
End DriverExtras.

Lemma train_model_fit_request_witness :
  In (Fit "biggan"%string 64%Z "ckpt"%string 10 10 3)
     (trace toy_keras
        (train_model string "biggan"%string 64%Z "ckpt"%string
           105 10 (PyInt 37)) None)
  /\ 10%Z = (105 / 10)%Z
  /\ floordiv (py_or (PyInt 37) (PyInt 0)) 10 = Ok 3%Z.
Proof.
  assert (H : In (Fit "biggan"%string 64%Z "ckpt"%string 10 10 3)
                 (trace toy_keras
                    (train_model string "biggan"%string 64%Z "ckpt"%string
                       105 10 (PyInt 37)) None))
    by (do 3 right; left; reflexivity).
  split; [exact H|].
  destruct (train_model_fit_request toy_keras
              "biggan"%string 64%Z "ckpt"%string 105 10 (PyInt 37) None
              "biggan"%string 64%Z "ckpt"%string 10 10 3 H)
    as (_ & _ & Hep & _ & Hi & _).
  split; [exact Hep | exact Hi].
Defined.

Lemma train_model_returns_given_model_witness :
  run toy_keras
    (train_model string "biggan"%string 64%Z "ckpt"%string 100 10 PyNone) None
  = (Ok "biggan"%string, Some 64%Z)
  /\ 10%Z <> 0%Z.
Proof.
  assert (H : run toy_keras
                (train_model string "biggan"%string 64%Z "ckpt"%string
                   100 10 PyNone) None
              = (Ok "biggan"%string, Some 64%Z)) by reflexivity.
  split; [exact H|].
  exact (proj1 (proj2 (train_model_returns_given_model toy_keras
                         "biggan"%string 64%Z "ckpt"%string 100 10 PyNone
                         None (Some 64%Z) "biggan"%string H))).
Defined.

Lemma train_model_string_initial_step_witness :
  "500"%string <> ""%string /\ 10%Z <> 0%Z
  /\ run toy_keras
       (train_model string "biggan"%string 64%Z "ckpt"%string
          100 10 (PyStr "500")) None
     = (Raise TypeError, Some 64%Z).
Proof.
  split; [discriminate|]. split; [lia|].
  apply (train_model_string_initial_step toy_keras
           "biggan"%string 64%Z "ckpt"%string 100 10
           "ckpt"%string (Some 64%Z) None None None (Some 64%Z)
           "500"%string);
    first [discriminate | lia | reflexivity].
Defined.

Lemma train_model_fit_raises_witness :
  10%Z <> 0%Z
  /\ run toy_keras_bad_fit
       (train_model string "biggan"%string 64%Z "ckpt"%string
          100 10 (PyInt 50)) None
     = (Raise (OtherError "fit"), Some 64%Z).
Proof.
  split; [lia|].
  apply (train_model_fit_raises toy_keras_bad_fit
           "biggan"%string 64%Z "ckpt"%string 100 10
           "ckpt"%string (Some 64%Z) None None None (Some 64%Z) (Some 64%Z)
           50 (OtherError "fit"));
    first [lia | reflexivity].
Defined.

Lemma train_model_resume_boundary_witness :
  (0 < 10)%Z
  /\ In (Fit "biggan"%string 64%Z "ckpt"%string 10 10 3)
        (trace toy_keras
           (train_model string "biggan"%string 64%Z "ckpt"%string
              105 10 (PyInt 37)) None)
  /\ (3 * 10 <= 37 < (3 + 1) * 10)%Z.
Proof.
  assert (H : In (Fit "biggan"%string 64%Z "ckpt"%string 10 10 3)
                 (trace toy_keras
                    (train_model string "biggan"%string 64%Z "ckpt"%string
                       105 10 (PyInt 37)) None))
    by (do 3 right; left; reflexivity).
  split; [lia|]. split; [exact H|].
  exact (proj1 (train_model_resume_boundary toy_keras
                  "biggan"%string 64%Z "ckpt"%string 105 10 37 None
                  "biggan"%string 64%Z "ckpt"%string 10 10 3
                  ltac:(lia) H)).
Defined.

Lemma train_model_negative_log_every_witness :
  (-10 < 0)%Z /\ (0 < 105)%Z
  /\ In (Fit "biggan"%string 64%Z "ckpt"%string (-11) (-10) 0)
        (trace toy_keras
           (train_model string "biggan"%string 64%Z "ckpt"%string
              105 (-10) PyNone) None)
  /\ (-11 < 0)%Z /\ (-10 < 0)%Z.
Proof.
  assert (H : In (Fit "biggan"%string 64%Z "ckpt"%string (-11) (-10) 0)
                 (trace toy_keras
                    (train_model string "biggan"%string 64%Z "ckpt"%string
                       105 (-10) PyNone) None))
    by (do 3 right; left; reflexivity).
  split; [lia|]. split; [lia|]. split; [exact H|].
  exact (train_model_negative_log_every toy_keras
           "biggan"%string 64%Z "ckpt"%string 105 (-10) PyNone None
           "biggan"%string 64%Z "ckpt"%string (-11) (-10) 0
           ltac:(lia) ltac:(lia) H).
Defined.

(** * Further properties of the minimisation steps *)

Lemma combine_snd_firstn {A B : Type} (xs : list A) (ys : list B) :
  map snd (combine xs ys) = firstn (List.length xs) ys.
Proof.
  revert ys. induction xs as [|x xs IH]; intros [|y ys]; cbn;
    try reflexivity.
  now rewrite IH.
Qed.

Lemma combine_fst_firstn {A B : Type} (xs : list A) (ys : list B) :
  map fst (combine xs ys) = firstn (List.length ys) xs.
Proof.
  revert ys. induction xs as [|x xs IH]; intros [|y ys]; cbn;
    try reflexivity.
  now rewrite IH.
Qed.

Section MinimizeExtras.
Context {Optimizer Var Tape Callable W : Type}.
Variable h : forall op : MinOp Optimizer Var Tape Callable,
    W -> Result (min_resp Optimizer Var Tape Callable op) * W.
Variables (optimizer : Optimizer) (loss_fn : Callable) (var_list : list Var).

Ltac next_answer H :=
  match type of H with
  | context [h ?op ?w0] =>
      let E := fresh "E" in
      destruct (h op w0) as [[?|?] ?] eqn:E; cbn in H |- *
  end.

(** X15: when [loss_fn] raises, the tape is left, neither the gradient nor
    the optimizer is asked for anything, and the exception of [loss_fn] is
    the outcome. *)
Theorem imperative_minimize_loss_fn_raises
    (tape : Tape) (e : exception) (w w1 w2 w3 : W) :
  h GradientTape w = (Ok tape, w1) ->
  h (Invoke loss_fn) w1 = (Raise e, w2) ->
  h (TapeExit tape) w2 = (Ok tt, w3) ->
  run h (imperative_minimize optimizer loss_fn var_list) w = (Raise e, w3)
  /\ trace h (imperative_minimize optimizer loss_fn var_list) w
     = [GradientTape; Invoke loss_fn; TapeExit tape].
Proof.
  intros H1 H2 H3. unfold imperative_minimize. cbn.
  rewrite H1; cbn. rewrite H2; cbn. rewrite H3; cbn.
  split; reflexivity.
Qed.

(** X16: once the tape is entered it is left again, directly after the one
    evaluation of [loss_fn], whatever [loss_fn] and the tape answer. *)
Theorem imperative_minimize_leaves_tape (tape : Tape) (w w1 : W) :
  h GradientTape w = (Ok tape, w1) ->
  exists rest,
    trace h (imperative_minimize optimizer loss_fn var_list) w
    = GradientTape :: Invoke loss_fn :: TapeExit tape :: rest.
Proof.
  intros H1. unfold imperative_minimize. cbn. rewrite H1; cbn.
  destruct (h (Invoke loss_fn) w1) as [r w2]; cbn.
  match goal with
  | |- context [h ?op ?w0] => destruct (h op w0) as [r' w3]; cbn
  end.
  eexists. reflexivity.
Qed.

(** X17: whatever the collaborators answer, the optimizer is asked to apply
    gradients only as the fifth and last request, after [loss_fn] returned
    [loss], the tape was left and the tape gave [grad] for [loss] and
    [var_list]; it is the given optimizer, and what it receives is
    [zip(grad, var_list)], so every variable it is handed is one of
    [var_list]. *)
Theorem imperative_minimize_apply_request
    (o : Optimizer) (gv : list (Grad * Var)) (w : W) :
  In (ApplyGradients o gv)
     (trace h (imperative_minimize optimizer loss_fn var_list) w) ->
  o = optimizer
  /\ exists (tape : Tape) (loss : Tensor) (grad : list Grad)
            (w1 w2 w3 w4 : W),
       h GradientTape w = (Ok tape, w1)
       /\ h (Invoke loss_fn) w1 = (Ok loss, w2)
       /\ h (TapeExit tape) w2 = (Ok tt, w3)
       /\ h (TapeGradient tape loss var_list) w3 = (Ok grad, w4)
       /\ gv = combine grad var_list
       /\ trace h (imperative_minimize optimizer loss_fn var_list) w
          = [GradientTape; Invoke loss_fn; TapeExit tape;
             TapeGradient tape loss var_list;
             ApplyGradients optimizer gv]
       /\ (forall g v, In (g, v) gv -> In g grad /\ In v var_list).
Proof.
  unfold imperative_minimize. cbn. intros H.
  next_answer H; [|destruct H as [H|[]]; discriminate H].
  next_answer H.
  - next_answer H; [|destruct H as [H|[H|[H|[]]]]; discriminate H].
    match goal with u : min_resp _ _ _ _ (TapeExit _) |- _ =>
      destruct u end.
    next_answer H; [|destruct H as [H|[H|[H|[H|[]]]]]; discriminate H].
    next_answer H;
      (destruct H as [H|[H|[H|[H|[H|[]]]]]]; try discriminate H;
       injection H as <- <-; split; [reflexivity|];
       do 7 eexists; repeat split;
       first [eassumption | reflexivity
             | eapply in_combine_l; eassumption
             | eapply in_combine_r; eassumption]).
  - next_answer H; destruct H as [H|[H|[H|[]]]]; discriminate H.
Qed.

(** X18: when the tape fails to give the gradients, the optimizer is not
    asked to apply anything and the tape's exception is the outcome. *)
Theorem imperative_minimize_gradient_raises
    (tape : Tape) (loss : Tensor) (e : exception) (w w1 w2 w3 w4 : W) :
  h GradientTape w = (Ok tape, w1) ->
  h (Invoke loss_fn) w1 = (Ok loss, w2) ->
  h (TapeExit tape) w2 = (Ok tt, w3) ->
  h (TapeGradient tape loss var_list) w3 = (Raise e, w4) ->
  run h (imperative_minimize optimizer loss_fn var_list) w = (Raise e, w4)
  /\ trace h (imperative_minimize optimizer loss_fn var_list) w
     = [GradientTape; Invoke loss_fn; TapeExit tape;
        TapeGradient tape loss var_list].
Proof.
  intros H1 H2 H3 H4. unfold imperative_minimize. cbn.
  rewrite H1; cbn. rewrite H2; cbn. rewrite H3; cbn. rewrite H4; cbn.
  split; reflexivity.
Qed.
End MinimizeExtras.

Lemma imperative_minimize_loss_fn_raises_witness :
  run toy_tf_bad_loss (imperative_minimize 1%R tt [tt]) 3%R
  = (Raise (OtherError "loss_fn"), 3%R)
  /\ trace toy_tf_bad_loss (imperative_minimize 1%R tt [tt]) 3%R
     = [GradientTape; Invoke tt; TapeExit tt].
Proof.
  apply (imperative_minimize_loss_fn_raises toy_tf_bad_loss 1%R tt [tt]
           tt (OtherError "loss_fn") 3%R 3%R 3%R 3%R);
    reflexivity.
Defined.

Lemma imperative_minimize_leaves_tape_witness :
  exists rest,
    trace toy_tf_bad_loss (imperative_minimize 1%R tt [tt]) 3%R
    = GradientTape :: Invoke tt :: TapeExit tt :: rest.
Proof.
  apply (imperative_minimize_leaves_tape toy_tf_bad_loss 1%R tt [tt]
           tt 3%R 3%R).
  reflexivity.
Defined.

Lemma imperative_minimize_apply_request_witness :
  In (ApplyGradients 1%R (combine [Some [2 * 3]%R] [tt]))
     (trace toy_tf (imperative_minimize 1%R tt [tt]) 3%R)
  /\ 1%R = 1%R.
Proof.
  assert (H : In (ApplyGradients 1%R (combine [Some [2 * 3]%R] [tt]))
                 (trace toy_tf (imperative_minimize 1%R tt [tt]) 3%R))
    by (do 4 right; left; reflexivity).
  split; [exact H|].
  exact (proj1 (imperative_minimize_apply_request toy_tf 1%R tt [tt]
                  1%R (combine [Some [2 * 3]%R] [tt]) 3%R H)).
Defined.

Lemma imperative_minimize_gradient_raises_witness :
  run toy_tf_bad_gradient (imperative_minimize 1%R tt [tt]) 3%R
  = (Raise (OtherError "gradient"), 3%R)
  /\ trace toy_tf_bad_gradient (imperative_minimize 1%R tt [tt]) 3%R
     = [GradientTape; Invoke tt; TapeExit tt;
        TapeGradient tt [3 * 3]%R [tt]].
Proof.
  apply (imperative_minimize_gradient_raises toy_tf_bad_gradient 1%R tt [tt]
           tt [3 * 3]%R (OtherError "gradient") 3%R 3%R 3%R 3%R 3%R);
    reflexivity.
Defined.

Section DeclarativeExtras.
Context {Optimizer Var LossExpr GradExpr Operation W : Type}.
Variable h : forall op : DeclOp Optimizer Var LossExpr GradExpr,
    W -> Result (decl_resp Optimizer Var LossExpr GradExpr Operation op) * W.
Variables (optimizer : Optimizer) (loss : LossExpr) (var_list : list Var).

(** X19: in a run where the optimizer answers, [declarative_minimize] asks
    the optimizer for the gradients of [loss] with respect to [var_list],
    then asks it to apply them zipped with [var_list], and returns the
    operation that [apply_gradients] returned; nothing else is requested.
    With one gradient per variable, the pairs list the gradients and the
    variables in their order. *)
Theorem declarative_minimize_step
    (grads : list GradExpr) (op : Operation) (w w1 w2 : W) :
  h (GetGradients optimizer loss var_list) w = (Ok grads, w1) ->
  h (ApplyGradientsOp optimizer (combine grads var_list)) w1 = (Ok op, w2) ->
  List.length grads = List.length var_list ->
  run h (declarative_minimize GradExpr Operation optimizer loss var_list) w
  = (Ok op, w2)
  /\ trace h (declarative_minimize GradExpr Operation
                optimizer loss var_list) w
     = [GetGradients optimizer loss var_list;
        ApplyGradientsOp optimizer (combine grads var_list)]
  /\ map fst (combine grads var_list) = grads
  /\ map snd (combine grads var_list) = var_list.
Proof.
  intros H1 H2 Hlen. unfold declarative_minimize. cbn.
  rewrite H1; cbn. rewrite H2; cbn.
  destruct (combine_fst_snd grads var_list Hlen) as [Hf Hs].
  repeat split; assumption.
Qed.

(** X20: when [get_gradients] raises, [apply_gradients] is not requested
    and the exception is the outcome. *)
Theorem declarative_minimize_gradients_raise (e : exception) (w w1 : W) :
  h (GetGradients optimizer loss var_list) w = (Raise e, w1) ->
  run h (declarative_minimize GradExpr Operation optimizer loss var_list) w
  = (Raise e, w1)
  /\ trace h (declarative_minimize GradExpr Operation
                optimizer loss var_list) w
     = [GetGradients optimizer loss var_list].
Proof.
  intros H1. unfold declarative_minimize. cbn. rewrite H1; cbn.
  split; reflexivity.
Qed.

(** X21: whatever the optimizer answers, what it is asked to apply is
    [zip(grads, var_list)] for the gradients [grads] it gave itself: as many
    pairs as the shorter of the two lists has elements, the variables being
    the first ones of [var_list] in their order; no other variable is ever
    handed over. *)
Theorem declarative_minimize_apply_request
    (o : Optimizer) (gv : list (GradExpr * Var)) (w : W) :
  In (ApplyGradientsOp o gv)
     (trace h (declarative_minimize GradExpr Operation
                 optimizer loss var_list) w) ->
  o = optimizer
  /\ exists (grads : list GradExpr) (w1 : W),
       h (GetGradients optimizer loss var_list) w = (Ok grads, w1)
       /\ gv = combine grads var_list
       /\ List.length gv
          = Nat.min (List.length grads) (List.length var_list)
       /\ map snd gv = firstn (List.length grads) var_list
       /\ map fst gv = firstn (List.length var_list) grads.
Proof.
  unfold declarative_minimize. cbn. intros H.
  destruct (h (GetGradients optimizer loss var_list) w)
    as [[grads|e] w1] eqn:E1; cbn in H;
    [|destruct H as [H|[]]; discriminate H].
  match type of H with
  | context [h ?op ?w0] => destruct (h op w0) as [[?|?] ?]; cbn in H
  end;
    (destruct H as [H|[H|[]]]; try discriminate H;
     injection H as <- <-; split; [reflexivity|];
     exists grads, w1; split; [reflexivity|]; split; [reflexivity|];
     split; [apply length_combine|];
     split; [apply combine_snd_firstn | apply combine_fst_firstn]).
Qed.
End DeclarativeExtras.

Lemma declarative_minimize_step_witness :
  run toy_graph
    (declarative_minimize string (list (string * string))
       "sgd"%string "x*x"%string ["x"%string; "y"%string]) 0
  = (Ok [("d/dx"%string, "x"%string); ("d/dy"%string, "y"%string)], 1).
Proof.
  apply (declarative_minimize_step toy_graph
           "sgd"%string "x*x"%string ["x"%string; "y"%string]
           ["d/dx"%string; "d/dy"%string]
           [("d/dx"%string, "x"%string); ("d/dy"%string, "y"%string)]
           0 0 1);
    reflexivity.
Defined.

Lemma declarative_minimize_gradients_raise_witness :
  run toy_graph_bad_gradient
    (declarative_minimize string (list (string * string))
       "sgd"%string "x*x"%string ["x"%string]) 0
  = (Raise (OtherError "get_gradients"), 0).
Proof.
  apply (declarative_minimize_gradients_raise toy_graph_bad_gradient
           "sgd"%string "x*x"%string ["x"%string]
           (OtherError "get_gradients") 0 0).
  reflexivity.
Defined.

Lemma declarative_minimize_apply_request_witness :
  In (ApplyGradientsOp "sgd"%string [("d/dx"%string, "x"%string)])
     (trace toy_graph
        (declarative_minimize string (list (string * string))
           "sgd"%string "x*x"%string ["x"%string]) 0)
  /\ "sgd"%string = "sgd"%string.
Proof.
  assert (H : In (ApplyGradientsOp "sgd"%string [("d/dx"%string, "x"%string)])
                 (trace toy_graph
                    (declarative_minimize string (list (string * string))
                       "sgd"%string "x*x"%string ["x"%string]) 0))
    by (right; left; reflexivity).
  split; [exact H|].
  exact (proj1 (declarative_minimize_apply_request toy_graph
                  "sgd"%string "x*x"%string ["x"%string]
                  "sgd"%string [("d/dx"%string, "x"%string)] 0 H)).
Defined.
